(** * rosnodejs: the node facade (index.js) and the clock source (lib/Time.js)

    A shallow embedding of the two modules and the properties of the
    registry-connect retry loop, node initialisation, shutdown and the
    simulated clock.

    The JavaScript modules keep their state in module-level variables
    ([rosNode], [pingMasterTimeout] in the facade; [simTime], [simTimeSub]
    and [Time.useSimTime] in Time.js).  They are gathered in one record,
    [Process], that every operation takes and returns.  What the event
    loop, the registry and the slave server do is an input: a retry loop is
    run against the list of what each firing of its timer observes. *)

From Stdlib Require Import ZArith String Ascii List Bool Lia DecimalString Sorted.
From Stdlib Require Import DecimalPos DecimalZ.
From stdpp Require Import base list strings gmap.
Import ListNotations.

Local Open Scope string_scope.
Local Open Scope list_scope.
Local Open Scope Z_scope.

(** ** JavaScript values *)

(** A JavaScript [Error]; [statusCode] is [None] when the property is
    [undefined].  [Error msg] builds one the way [Error('...')] does. *)
Record JsError := mkError { message : string; statusCode : option Z }.

Definition Error (msg : string) : JsError :=
  {| message := msg; statusCode := None |}.

(** The state of a promise once the run that is modelled has ended. *)
Inductive Promise (A : Type) : Type :=
| Pending
| Resolved (a : A)
| Rejected (e : JsError).
Arguments Pending {A}.
Arguments Resolved {A} a.
Arguments Rejected {A} e.

(** Values a registry parameter can hold, and JavaScript truthiness. *)
Inductive JsVal :=
| VUndefined
| VBool (b : bool)
| VNum (n : Z)
| VStr (s : string).

Definition truthy (v : JsVal) : bool :=
  match v with
  | VUndefined => false
  | VBool b => b
  | VNum n => negb (Z.eqb n 0)
  | VStr s => negb (String.eqb s "")
  end.

(** [String(x)] of an integral number and of a possibly undefined string. *)
Definition num_to_string (n : Z) : string := NilZero.string_of_int (Z.to_int n).

Definition str_or_undefined (o : option string) : string :=
  match o with Some s => s | None => "undefined" end.

(** ** Collaborators that are not part of the two modules *)

(** Modelled from the spec: lib/RosNode.js is not among the sources.  A
    node carries its fully-qualified name and registry address, both fixed
    at creation, and a flag that marks it unusable once shut down
    ([isShutdown]); [RosNode_shutdown] is what [rosNode.shutdown()] does to
    that flag. *)
Record RosNode := mkRosNode {
  _nodeName : string;
  _rosMasterUri : option string;
  _shutdown : bool
}.

Definition new_RosNode (nodeName : string) (rosMasterUri : option string) : RosNode :=
  {| _nodeName := nodeName; _rosMasterUri := rosMasterUri; _shutdown := false |}.

Definition getNodeName (n : RosNode) : string := _nodeName n.
Definition getRosMasterUri (n : RosNode) : string := str_or_undefined (_rosMasterUri n).
Definition isShutdown (n : RosNode) : bool := _shutdown n.

Definition RosNode_shutdown (n : RosNode) : RosNode :=
  {| _nodeName := _nodeName n; _rosMasterUri := _rosMasterUri n; _shutdown := true |}.

(** Modelled from the spec: lib/NodeHandle.js is not among the sources.
    [new NodeHandle(rosNode, namespace)] is the handle through which callers
    reach a node: it keeps the reference it was given ([None] for [null])
    and the namespace. *)
Record NodeHandle := mkNodeHandle {
  nh_node : option nat;
  nh_namespace : option string
}.

(** A ROS time stamp, as time_utils builds it. *)
Record RosTime := mkRosTime { secs : Z; nsecs : Z }.

(** Modelled from the spec: utils/time_utils.js is not among the sources.
    [dateToRosTime] splits milliseconds into seconds and nanoseconds, so
    that [dateToRosTime 0] is the zero time the spec names. *)
Definition dateToRosTime (ms : Z) : RosTime :=
  {| secs := ms / 1000; nsecs := (ms mod 1000) * 1000000 |}.

Definition zeroTime : RosTime := {| secs := 0; nsecs := 0 |}.

(** The subscriber object [nh.subscribe] returns. *)
Record Subscriber := mkSubscriber {
  sub_topic : string;
  sub_type : string;
  sub_throttleMs : Z
}.

(** ** What the process does that can be observed *)

Inductive Level := LInfo | LWarn | LError.

Definition Level_eqb (a b : Level) : bool :=
  match a, b with
  | LInfo, LInfo | LWarn, LWarn | LError, LError => true
  | _, _ => false
  end.

(** A line written by the logger, with the logger's clock when it wrote it. *)
Record LogEntry := mkLog { level : Level; stamp : Z; text : string }.

Inductive Event :=
| SetTimeout (handle : nat) (delay : Z)
| GetMasterUri                      (* one connection attempt to the registry *)
| GetParam (key : string)           (* one parameter lookup at the registry *)
| NodeShutdown (ref : nat)          (* rosNode.shutdown() *)
| Log (e : LogEntry).

(** ** State of the two modules *)

(** Time.js: [Time.useSimTime], [simTimeSub], [simTime]. *)
Record TimeState := mkTime {
  useSimTime : JsVal;
  simTimeSub : option Subscriber;
  simTime : RosTime
}.

Definition Time_init : TimeState :=
  {| useSimTime := VBool false; simTimeSub := None; simTime := dateToRosTime 0 |}.

(** The process: the heap of node objects ([rosNode] and every handle refer
    to a node by its index), the two variables of the facade, the timers the
    event loop still holds, the events so far (newest first) and Time.js. *)
Record Process := mkProcess {
  heap : list RosNode;
  rosNode : option nat;
  pingMasterTimeout : option nat;
  timers : list nat;
  timerSeq : nat;
  events : list Event;
  time : TimeState
}.

Definition Process_init : Process :=
  {| heap := []; rosNode := None; pingMasterTimeout := None;
     timers := []; timerSeq := O; events := []; time := Time_init |}.

Definition set_heap (h : list RosNode) (s : Process) : Process :=
  mkProcess h (rosNode s) (pingMasterTimeout s) (timers s) (timerSeq s) (events s) (time s).
Definition set_rosNode (r : option nat) (s : Process) : Process :=
  mkProcess (heap s) r (pingMasterTimeout s) (timers s) (timerSeq s) (events s) (time s).
Definition set_pingMasterTimeout (t : option nat) (s : Process) : Process :=
  mkProcess (heap s) (rosNode s) t (timers s) (timerSeq s) (events s) (time s).
Definition set_timers (l : list nat) (s : Process) : Process :=
  mkProcess (heap s) (rosNode s) (pingMasterTimeout s) l (timerSeq s) (events s) (time s).
Definition set_timerSeq (n : nat) (s : Process) : Process :=
  mkProcess (heap s) (rosNode s) (pingMasterTimeout s) (timers s) n (events s) (time s).
Definition emit (e : Event) (s : Process) : Process :=
  mkProcess (heap s) (rosNode s) (pingMasterTimeout s) (timers s) (timerSeq s) (e :: events s) (time s).
Definition set_time (t : TimeState) (s : Process) : Process :=
  mkProcess (heap s) (rosNode s) (pingMasterTimeout s) (timers s) (timerSeq s) (events s) t.

(** The node [rosNode] refers to. *)
Definition the_node (s : Process) : option RosNode :=
  match rosNode s with
  | Some r => heap s !! r
  | None => None
  end.

(** ** Timers of the event loop *)

Definition drop_timer (h : nat) (l : list nat) : list nat :=
  List.filter (fun x => negb (Nat.eqb x h)) l.

(** [setTimeout(f, delay)]: a fresh handle, held until it fires or is cleared. *)
Definition setTimeout (delay : Z) (s : Process) : nat * Process :=
  let h := timerSeq s in
  (h, emit (SetTimeout h delay) (set_timerSeq (S h) (set_timers (h :: timers s) s))).

(** The event loop runs the callback of timer [h]. *)
Definition fire (h : nat) (s : Process) : Process :=
  set_timers (drop_timer h (timers s)) s.

(** [clearTimeout(x)]: nothing for [null] or a timer no longer held. *)
Definition clearTimeout (x : option nat) (s : Process) : Process :=
  match x with
  | Some h => set_timers (drop_timer h (timers s)) s
  | None => s
  end.

(** ** Logging *)

Definition logged (lv : Level) (msg : string) (ev : Event) : bool :=
  match ev with
  | Log e => Level_eqb (level e) lv && String.eqb (text e) msg
  | _ => false
  end.

(** The clock of the newest line of level [lv] with text [msg]. *)
Fixpoint last_stamp (lv : Level) (msg : string) (evs : list Event) : option Z :=
  match evs with
  | [] => None
  | ev :: evs' =>
      if logged lv msg ev
      then match ev with Log e => Some (stamp e) | _ => None end
      else last_stamp lv msg evs'
  end.

(** lib/Logging.js is not among the sources; a logger call is kept as the
    line it writes.  [log.error(msg)] always writes. *)
Definition log_error (now : Z) (msg : string) (s : Process) : Process :=
  emit (Log {| level := LError; stamp := now; text := msg |}) s.

(** [log.infoOnce(msg)]: written the first time only. *)
Definition log_infoOnce (now : Z) (msg : string) (s : Process) : Process :=
  match last_stamp LInfo msg (events s) with
  | Some _ => s
  | None => emit (Log {| level := LInfo; stamp := now; text := msg |}) s
  end.

(** Modelled from the spec: lib/Logging.js is not among the sources.
    [log.warnThrottle(interval, msg)] writes [msg] at most once per
    [interval]: it writes when the message was never written, or when at
    least [interval] has passed on the logger's clock since it last was. *)
Definition log_warnThrottle (interval : Z) (now : Z) (msg : string) (s : Process) : Process :=
  match last_stamp LWarn msg (events s) with
  | Some t =>
      if now - t >=? interval
      then emit (Log {| level := LWarn; stamp := now; text := msg |}) s
      else s
  | None => emit (Log {| level := LWarn; stamp := now; text := msg |}) s
  end.

(** ** The facade: [_checkMasterHelper] *)

(** What one firing of the retry timer observes: whether the slave server
    has finished binding, whether [getMasterUri({maxAttempts: 1})] resolves
    (asked only when the slave server is ready), [Date.now()] where the
    deadline is tested, and the logger's clock. *)
Record Poll := mkPoll {
  slaveApiSetupComplete : bool;
  masterResponds : bool;
  dateNow : Z;
  logNow : Z
}.

Definition msg_no_slave (uri : string) : string :=
  "Unable to register with master node [" +:+ uri +:+
  "]: unable to set up slave API Server. Stopping...".
Definition msg_connected (uri : string) : string :=
  "Connected to master at " +:+ uri +:+ "!".
Definition msg_timed_out (uri : string) : string :=
  "Timed out before registering with master node [" +:+ uri +:+
  "]: master may not be running yet.".
Definition msg_keep_trying (uri : string) : string :=
  "Unable to register with master node [" +:+ uri +:+
  "]: master may not be running yet. Will keep trying.".

(** The two errors the helper rejects with; the spec calls them
    RegistrationTimeout and RegistryUnavailable. *)
Definition RegistrationTimeout : JsError := Error "Unable to setup slave API server.".
Definition RegistryUnavailable : JsError := Error "Registration with master timed out.".

(** [Date.now() - startTime >= maxTimeout && !(maxTimeout < 0)] *)
Definition deadline_passed (maxTimeout startTime now : Z) : bool :=
  (now - startTime >=? maxTimeout) && negb (maxTimeout <? 0).

(** [localHelper]: arm the timer and keep its handle in
    [pingMasterTimeout]; when it fires, follow the callback.  With no
    firing left to observe the promise is still pending and the timer is
    still held.  Should [rosNode] be [null] when the timer fires, the
    callback throws before it settles anything. *)
Fixpoint localHelper (timeout maxTimeout startTime : Z) (polls : list Poll)
    (s : Process) : Process * Promise unit :=
  let '(h, s) := setTimeout timeout s in
  let s := set_pingMasterTimeout (Some h) s in
  match polls with
  | [] => (s, Pending)
  | p :: polls' =>
      let s := fire h s in
      match the_node s with
      | None => (s, Pending)
      | Some node =>
          if negb (slaveApiSetupComplete p) then
            if deadline_passed maxTimeout startTime (dateNow p) then
              (log_error (logNow p) (msg_no_slave (getRosMasterUri node)) s,
               Rejected RegistrationTimeout)
            else localHelper timeout maxTimeout startTime polls' s
          else
            let s := emit GetMasterUri s in
            if masterResponds p then
              let s := log_infoOnce (logNow p) (msg_connected (getRosMasterUri node)) s in
              (set_pingMasterTimeout None s, Resolved tt)
            else if deadline_passed maxTimeout startTime (dateNow p) then
              (log_error (logNow p) (msg_timed_out (getRosMasterUri node)) s,
               Rejected RegistryUnavailable)
            else
              localHelper timeout maxTimeout startTime polls'
                (log_warnThrottle 60000 (logNow p)
                   (msg_keep_trying (getRosMasterUri node)) s)
      end
  end.

(** [_checkMasterHelper(timeout = 100, maxTimeout = -1)]; [startTime] is
    the [Date.now()] it reads on entry. *)
Definition _checkMasterHelper (timeout maxTimeout : option Z) (startTime : Z)
    (polls : list Poll) (s : Process) : Process * Promise unit :=
  localHelper (default 100 timeout) (default (-1) maxTimeout) startTime polls s.

(** ** The facade: node names *)

(** [nodeName.startsWith('/')] *)
Definition startsWith_slash (nodeName : string) : bool :=
  String.prefix "/" nodeName.

Definition _validateNodeName (nodeName : string) : string :=
  if negb (startsWith_slash nodeName) then "/" +:+ nodeName else nodeName.

(** [util.format('%s_%s_%s', nodeName, process.pid, Date.now())] *)
Definition _anonymizeNodeName (nodeName : string) (pid now : Z) : string :=
  nodeName +:+ "_" +:+ num_to_string pid +:+ "_" +:+ num_to_string now.

(** ** The facade: [ok], [shutdown], [getNodeHandle], [reset] *)

(** [rosNode && !rosNode.isShutdown()], as a truth value. *)
Definition ok (s : Process) : bool :=
  match the_node s with
  | Some n => negb (isShutdown n)
  | None => false
  end.

(** [rosNode.shutdown()] on the node object itself: every reference to it
    sees the flag. *)
Definition rosNode_shutdown (s : Process) : Process :=
  match rosNode s with
  | Some r =>
      match heap s !! r with
      | Some n => emit (NodeShutdown r) (set_heap (<[r := RosNode_shutdown n]> (heap s)) s)
      | None => s
      end
  | None => s
  end.

(** [shutdown]; [closing] is the promise [rosNode.shutdown()] returns. *)
Definition shutdown (closing : Promise unit) (s : Process) : Process * Promise unit :=
  let s := clearTimeout (pingMasterTimeout s) s in
  if ok s then (rosNode_shutdown s, closing)
  else (s, Resolved tt).

Definition getNodeHandle (namespace : option string) (s : Process) : NodeHandle :=
  {| nh_node := rosNode s; nh_namespace := namespace |}.

(** The [nh] getter. *)
Definition nh (s : Process) : NodeHandle :=
  {| nh_node := rosNode s; nh_namespace := None |}.

Definition reset (s : Process) : Process := set_rosNode None s.

(** ** Time.js *)

(** A message of the clock topic. *)
Record ClockMessage := mkClock { clock : RosTime }.

Definition handleSimTimeMessage (msg : ClockMessage) (t : TimeState) : TimeState :=
  {| useSimTime := useSimTime t; simTimeSub := simTimeSub t; simTime := clock msg |}.

(** [Time.now()]; [wall] is what [timeUtils.now()] would return. *)
Definition now (wall : RosTime) (t : TimeState) : RosTime :=
  if truthy (useSimTime t) then simTime t else wall.

Definition clock_subscriber : Subscriber :=
  {| sub_topic := "/clock"; sub_type := "rosgraph_msgs/Clock"; sub_throttleMs := -1 |}.

(** What the registry answers to [nh.getParam('/use_sim_time')], and what
    [nh.subscribe] throws, if it does. *)
Record TimeEnv := mkTimeEnv {
  getParam_use_sim_time : JsVal + JsError;
  subscribe_throws : option JsError
}.

(** The [.then] handler of [_initializeRosTime]. *)
Definition on_use_sim_time (env : TimeEnv) (val : JsVal) (s : Process)
    : Process * Promise unit :=
  let t := time s in
  let s := set_time {| useSimTime := val; simTimeSub := simTimeSub t; simTime := simTime t |} s in
  if truthy val then
    match subscribe_throws env with
    | Some err => (s, Rejected err)
    | None =>
        let t := time s in
        (set_time {| useSimTime := useSimTime t; simTimeSub := Some clock_subscriber;
                     simTime := simTime t |} s,
         Resolved tt)
    end
  else (s, Resolved tt).

(** The [.catch] handler: an error without [statusCode] is thrown again. *)
Definition catch_use_sim_time (r : Process * Promise unit) : Process * Promise unit :=
  match r with
  | (s, Rejected err) =>
      match statusCode err with
      | None => (s, Rejected err)
      | Some _ => (s, Resolved tt)
      end
  | _ => r
  end.

Definition _initializeRosTime (env : TimeEnv) (notime : bool) (s : Process)
    : Process * Promise unit :=
  if notime then (s, Resolved tt)
  else
    let s := emit (GetParam "/use_sim_time") s in
    catch_use_sim_time
      match getParam_use_sim_time env with
      | inl val => on_use_sim_time env val s
      | inr err => (s, Rejected err)
      end.

(** ** The facade: [initNode] *)

(** The options [initNode] reads; a flag is the truthiness of the property,
    [None] an absent one. *)
Record Options := mkOptions {
  anonymous : bool;
  opt_rosMasterUri : option string;
  opt_timeout : option Z;
  notime : bool;
  onTheFly : bool
}.

Definition no_options : Options :=
  {| anonymous := false; opt_rosMasterUri := None; opt_timeout := None;
     notime := false; onTheFly := false |}.

(** What the surroundings contribute to one [initNode] call: the process id
    and [Date.now()] read when anonymizing, the environment's registry
    address, how [messages.getAll()] and [Logging.initializeRosOptions]
    settle ([None]: resolved), the start time and the observations of the
    retry loop, the clock lookup, the logger's clock in the final [catch]
    and the promise [rosNode.shutdown()] returns there. *)
Record Env := mkEnv {
  pid : Z;
  anonNow : Z;
  ROS_MASTER_URI : option string;
  getAll : option JsError;
  startTime : Z;
  polls : list Poll;
  initializeRosOptions : option JsError;
  timeEnv : TimeEnv;
  catchNow : Z;
  closing : Promise unit
}.

(** [p.then(f)] for promises already run to their end. *)
Definition and_then {A B : Type} (r : Process * Promise A)
    (f : A -> Process -> Process * Promise B) : Process * Promise B :=
  match r with
  | (s, Resolved a) => f a s
  | (s, Rejected e) => (s, Rejected e)
  | (s, Pending) => (s, Pending)
  end.

Definition settled (o : option JsError) (s : Process) : Process * Promise unit :=
  match o with
  | None => (s, Resolved tt)
  | Some e => (s, Rejected e)
  end.

Definition _loadOnTheFlyMessages (options : Options) (env : Env) (s : Process)
    : Process * Promise unit :=
  if onTheFly options then settled (getAll env) s else (s, Resolved tt).

Definition DuplicateNodeName (nodeName existing : string) : JsError :=
  Error ("Unable to initialize node [" +:+ nodeName +:+ "] - node [" +:+
         existing +:+ "] already exists").

(** The name [initNode] goes on with: anonymized if asked, then validated. *)
Definition resolved_name (nodeName : string) (options : Options) (env : Env) : string :=
  _validateNodeName
    (if anonymous options then _anonymizeNodeName nodeName (pid env) (anonNow env)
     else nodeName).

(** [options.rosMasterUri] if truthy, else [process.env.ROS_MASTER_URI]. *)
Definition chosen_master_uri (options : Options) (env : Env) : option string :=
  match opt_rosMasterUri options with
  | Some u => if String.eqb u "" then ROS_MASTER_URI env else Some u
  | None => ROS_MASTER_URI env
  end.

(** The chain up to the clock: on-the-fly messages, the registry connection
    and [Logging.initializeRosOptions]. *)
Definition before_clock (options : Options) (env : Env) (s : Process)
    : Process * Promise unit :=
  and_then (_loadOnTheFlyMessages options env s) (fun _ s =>
  and_then (_checkMasterHelper (Some 100) (opt_timeout options) (startTime env) (polls env) s) (fun _ s =>
  settled (initializeRosOptions env) s)).

(** The promise chain of a first [initNode], with its final [catch]. *)
Definition startup (options : Options) (env : Env) (s : Process)
    : Process * Promise NodeHandle :=
  let r :=
    and_then (before_clock options env s) (fun _ s =>
    and_then (_initializeRosTime (timeEnv env) (notime options) s) (fun _ s =>
    (s, Resolved (getNodeHandle None s)))) in
  match r with
  | (s, Rejected err) =>
      let s := log_error (catchNow env) ("Error during initialization: Error: " +:+ message err) s in
      let s := fst (shutdown (closing env) s) in
      (s, Rejected err)
  | _ => r
  end.

(** [rosNode = new RosNode(nodeName, rosMasterUri, nodeOpts)]; the node
    options and [Logging.initializeNodeLogger], called just before, play no
    part in what follows and are left out. *)
Definition create_node (nodeName : string) (options : Options) (env : Env)
    (s : Process) : Process :=
  let node := new_RosNode nodeName (chosen_master_uri options env) in
  set_rosNode (Some (length (heap s))) (set_heap (heap s ++ [node]) s).

Definition initNode (nodeName : string) (options : Options) (env : Env) (s : Process)
    : Process * Promise NodeHandle :=
  let nodeName := resolved_name nodeName options env in
  match rosNode s with
  | Some r =>
      (* [rosNode.getNodeName()]; the reference always points into the heap *)
      let existing := match heap s !! r with Some n => getNodeName n | None => "" end in
      if String.eqb nodeName existing
      then (s, Resolved (getNodeHandle None s))
      else (s, Rejected (DuplicateNodeName nodeName existing))
  | None => startup options env (create_node nodeName options env s)
  end.

(** ** The retry loop, one firing at a time *)

(** The state in which the callback of a freshly armed timer starts. *)
Definition woken (timeout : Z) (s : Process) : Process :=
  fire (timerSeq s) (set_pingMasterTimeout (Some (timerSeq s)) (snd (setTimeout timeout s))).

(** The state a firing that neither resolves nor rejects leaves behind. *)
Definition retried (timeout : Z) (p : Poll) (node : RosNode) (s : Process) : Process :=
  if negb (slaveApiSetupComplete p) then woken timeout s
  else log_warnThrottle 60000 (logNow p) (msg_keep_trying (getRosMasterUri node))
         (emit GetMasterUri (woken timeout s)).

(** A firing fails when the slave server is not ready or the registry does
    not answer. *)
Definition fails (p : Poll) : bool :=
  negb (slaveApiSetupComplete p && masterResponds p).

(** ** Reading the events *)


(** Connection attempts made so far. *)
Fixpoint attempts (evs : list Event) : nat :=
  match evs with
  | [] => O
  | GetMasterUri :: evs' => S (attempts evs')
  | _ :: evs' => attempts evs'
  end.

(** The delays of the timers armed so far, newest first. *)
Fixpoint delays (evs : list Event) : list Z :=
  match evs with
  | [] => []
  | SetTimeout _ d :: evs' => d :: delays evs'
  | _ :: evs' => delays evs'
  end.

(** The logger's clock at each warning written, newest first. *)
Fixpoint warn_stamps (evs : list Event) : list Z :=
  match evs with
  | [] => []
  | Log e :: evs' =>
      match level e with
      | LWarn => stamp e :: warn_stamps evs'
      | _ => warn_stamps evs'
      end
  | _ :: evs' => warn_stamps evs'
  end.

(** How many of the stamps fall in the window [[w, w + width)]. *)
Definition in_window (w width t : Z) : bool := (w <=? t) && (t <? w + width).

Definition count_in_window (w width : Z) (l : list Z) : nat :=
  length (List.filter (in_window w width) l).

(** ** The clock under a run of deliveries and readings *)

Inductive TimeCall :=
| Deliver (msg : ClockMessage)      (* the subscription hands over a message *)
| CallNow (wall : RosTime).         (* [Time.now()] while the wall clock shows [wall] *)

(** Runs the calls in order; returns what each [now()] returned, in order. *)
Fixpoint run_time (calls : list TimeCall) (t : TimeState) : list RosTime * TimeState :=
  match calls with
  | [] => ([], t)
  | Deliver msg :: calls' => run_time calls' (handleSimTimeMessage msg t)
  | CallNow wall :: calls' =>
      let v := now wall t in
      let '(vs, t') := run_time calls' t in
      (v :: vs, t')
  end.

(** The clock of the last message delivered in [calls], [d] if there is none. *)
Fixpoint latest_clock (calls : list TimeCall) (d : RosTime) : RosTime :=
  match calls with
  | [] => d
  | Deliver msg :: calls' => latest_clock calls' (clock msg)
  | CallNow _ :: calls' => latest_clock calls' d
  end.

(** A process that holds one node and nothing else. *)
Definition process_with (node : RosNode) : Process :=
  set_rosNode (Some O) (set_heap [node] Process_init).

(** [apart d a b]: stamp [a] comes at least [d] after stamp [b]. *)
Definition apart (d a b : Z) : Prop := b + d <= a.

(** Every warning among [evs] has the text [msg]. *)
Definition warns_only (msg : string) (evs : list Event) : Prop :=
  forall e, In (Log e) evs -> level e = LWarn -> text e = msg.

(** Since [old], the process has only written warnings with the text
    [msg], each at least 60 seconds after the one before. *)
Definition throttled_since (old : list Event) (msg : string) (s : Process) : Prop :=
  exists new,
    events s = new ++ old /\
    warns_only msg new /\
    Sorted (apart 60000) (warn_stamps new).

(** [s'] holds the same node objects as [s], and [rosNode] is the same. *)
Definition same_nodes (s s' : Process) : Prop :=
  heap s' = heap s /\ rosNode s' = rosNode s.

(** ** Sample runs *)

Definition sample_node : RosNode :=
  new_RosNode "/talker" (Some "http://localhost:11311").
Definition sample_process : Process := process_with sample_node.

(** A firing at clock [t] with the slave server not bound yet, with the
    registry silent, and with the registry answering. *)
Definition poll_unbound (t : Z) : Poll := mkPoll false false t t.
Definition poll_down (t : Z) : Poll := mkPoll true false t t.
Definition poll_up (t : Z) : Poll := mkPoll true true t t.


(** A registry that answers at the first firing and has no sim-time flag. *)
Definition sample_env : Env :=
  {| pid := 4242; anonNow := 1000; ROS_MASTER_URI := Some "http://localhost:11311";
     getAll := None; startTime := 1000; polls := [poll_up 1100];
     initializeRosOptions := None;
     timeEnv := {| getParam_use_sim_time :=
                     inr {| message := "Parameter [/use_sim_time] is not set";
                            statusCode := Some (-1) |};
                   subscribe_throws := None |};
     catchNow := 1200; closing := Resolved tt |}.

(** The same registry, refusing the connection of the parameter lookup. *)
Definition sample_env_refused : Env :=
  {| pid := 4242; anonNow := 1000; ROS_MASTER_URI := Some "http://localhost:11311";
     getAll := None; startTime := 1000; polls := [poll_up 1100];
     initializeRosOptions := None;
     timeEnv := {| getParam_use_sim_time := inr (Error "connect ECONNREFUSED");
                   subscribe_throws := None |};
     catchNow := 1200; closing := Resolved tt |}.

(** A registry whose sim-time flag is set. *)
Definition sample_sim : TimeEnv :=
  {| getParam_use_sim_time := inl (VBool true); subscribe_throws := None |}.


Definition only_anonymous : Options :=
  {| anonymous := true; opt_rosMasterUri := None; opt_timeout := None;
     notime := false; onTheFly := false |}.

(** ** The facade: packages and message definitions *)

(** The [resolve] and [reject] functions of a promise: only the first call
    of either settles it. *)
Definition resolve {A : Type} (a : A) (p : Promise A) : Promise A :=
  match p with
  | Pending => Resolved a
  | _ => p
  end.

Definition reject {A : Type} (e : JsError) (p : Promise A) : Promise A :=
  match p with
  | Pending => Rejected e
  | _ => p
  end.

(** The callback [findPackage] hands to [packages.findPackage]:
    [if (err) reject(err); resolve(dir)]. *)
Definition findPackage_callback (err : option JsError) (dir : string)
    (p : Promise string) : Promise string :=
  let p := match err with Some e => reject e p | None => p end in
  resolve dir p.

(** [findPackage]; [calls] lists the arguments of each invocation of the
    callback by [packages.findPackage], in order ([None]: a falsy [err]). *)
Definition findPackage (calls : list (option JsError * string)) : Promise string :=
  fold_left (fun p c => findPackage_callback (fst c) (snd c) p) calls Pending.





(** [s.split(sep)] for a one-character separator: never empty. *)
Fixpoint split (sep : ascii) (s : string) : list string :=
  match s with
  | EmptyString => [EmptyString]
  | String c s' =>
      if Ascii.eqb c sep then EmptyString :: split sep s'
      else match split sep s' with
           | hd :: tl => String c hd :: tl
           | [] => [String c EmptyString]
           end
  end.

Fixpoint contains (c : ascii) (s : string) : bool :=
  match s with
  | EmptyString => false
  | String c' s' => Ascii.eqb c' c || contains c s'
  end.

(** What [require(pkg)] returns: the message and the service classes of a
    package by name, either table possibly missing. *)
Record MsgPackage (C : Type) := mkMsgPackage {
  pkg_msg : option (gmap string C);
  pkg_srv : option (gmap string C)
}.
Arguments mkMsgPackage {C} _ _.
Arguments pkg_msg {C} _.
Arguments pkg_srv {C} _.

(** [checkMessage]; [requireMsgPackage] is [msgUtils.requireMsgPackage],
    which throws ([inl]) or returns a package or [undefined].  Whatever is
    thrown inside the [try], a property read off [undefined] included, is
    caught and leaves [rtv] undefined ([None]).  An absent [parts[1]] reads
    the property named "undefined". *)
Definition checkMessage {C : Type}
    (requireMsgPackage : string -> JsError + option (MsgPackage C))
    (type : string) : option C :=
  let parts := split "/" type in
  match parts !! O with
  | None => None
  | Some p0 =>
      match requireMsgPackage p0 with
      | inl _ => None
      | inr None => None
      | inr (Some pkg) =>
          match pkg_msg pkg with
          | None => None
          | Some table => table !! str_or_undefined (parts !! 1%nat)
          end
      end
  end.

Definition checkService {C : Type}
    (requireMsgPackage : string -> JsError + option (MsgPackage C))
    (type : string) : option C :=
  let parts := split "/" type in
  match parts !! O with
  | None => None
  | Some p0 =>
      match requireMsgPackage p0 with
      | inl _ => None
      | inr None => None
      | inr (Some pkg) =>
          match pkg_srv pkg with
          | None => None
          | Some table => table !! str_or_undefined (parts !! 1%nat)
          end
      end
  end.

(** ** More readings of the events and of the clock *)

(** Error lines written so far. *)
Fixpoint error_lines (evs : list Event) : nat :=
  match evs with
  | [] => O
  | Log e :: evs' =>
      match level e with
      | LError => S (error_lines evs')
      | _ => error_lines evs'
      end
  | _ :: evs' => error_lines evs'
  end.

(** Firings at which the slave server was bound, so that the registry was
    asked. *)
Definition asked (polls : list Poll) : nat :=
  length (List.filter slaveApiSetupComplete polls).

(** [s'] holds the same timers as [s], and [pingMasterTimeout] is the same. *)
Definition same_timers (s s' : Process) : Prop :=
  pingMasterTimeout s' = pingMasterTimeout s /\ timers s' = timers s.

(** The wall clock at each [now()] among [calls]. *)
Fixpoint walls (calls : list TimeCall) : list RosTime :=
  match calls with
  | [] => []
  | Deliver _ :: calls' => walls calls'
  | CallNow wall :: calls' => wall :: walls calls'
  end.

(** What a lookup of class [key] in package [pkg] should give: the entry of
    the chosen table, nothing when the package or the table is missing. *)
Definition lookup_class {C : Type} (table : MsgPackage C -> option (gmap string C))
    (requireMsgPackage : string -> JsError + option (MsgPackage C))
    (pkg key : string) : option C :=
  match requireMsgPackage pkg with
  | inr (Some p) =>
      match table p with
      | Some t => t !! key
      | None => None
      end
  | _ => None
  end.

(** A package with one message class and no service table. *)
Definition sample_require (name : string) : JsError + option (MsgPackage nat) :=
  if String.eqb name "geometry_msgs"
  then inr (Some {| pkg_msg := Some {[ "Twist" := 7%nat ]}; pkg_srv := None |})
  else inl (Error "Cannot find module").

(** ** Statements that the code does not satisfy as they are worded *)

(** With [maxTimeout = 0] and a registry that does not answer, one
    connection attempt is made and the call fails with RegistryUnavailable. *)
Definition connect_once_as_stated : Prop :=
  forall (timeout : option Z) (startTime : Z) (p : Poll) (polls : list Poll)
         (s : Process) (node : RosNode),
    the_node s = Some node ->
    masterResponds p = false ->
    startTime <= dateNow p ->
    let r := _checkMasterHelper timeout (Some 0) startTime (p :: polls) s in
    snd r = Rejected RegistryUnavailable /\
    attempts (events (fst r)) = S (attempts (events s)).












(** * Properties *)

Arguments msg_no_slave : simpl never.
Arguments msg_connected : simpl never.
Arguments msg_timed_out : simpl never.
Arguments msg_keep_trying : simpl never.
Arguments drop_timer : simpl never.

(** ** The retry loop *)

Module Connect.

Lemma localHelper_nil timeout maxTimeout startTime s :
  localHelper timeout maxTimeout startTime [] s =
  (set_pingMasterTimeout (Some (timerSeq s)) (snd (setTimeout timeout s)), Pending).
Proof. reflexivity. Qed.

Lemma localHelper_retry timeout maxTimeout startTime p polls s node :
  the_node s = Some node ->
  fails p = true ->
  deadline_passed maxTimeout startTime (dateNow p) = false ->
  localHelper timeout maxTimeout startTime (p :: polls) s =
  localHelper timeout maxTimeout startTime polls (retried timeout p node s).
Proof.
  intros Hn Hf Hd. unfold fails in Hf. unfold retried.
  cbn [localHelper setTimeout].
  change (the_node (fire _ _)) with (the_node s). rewrite Hn, Hd.
  destruct (slaveApiSetupComplete p); cbn [negb]; [|reflexivity].
  destruct (masterResponds p); [discriminate Hf | reflexivity].
Qed.

Lemma localHelper_no_slave timeout maxTimeout startTime p polls s node :
  the_node s = Some node ->
  slaveApiSetupComplete p = false ->
  deadline_passed maxTimeout startTime (dateNow p) = true ->
  localHelper timeout maxTimeout startTime (p :: polls) s =
  (log_error (logNow p) (msg_no_slave (getRosMasterUri node)) (woken timeout s),
   Rejected RegistrationTimeout).
Proof.
  intros Hn Hs Hd. cbn [localHelper setTimeout].
  change (the_node (fire _ _)) with (the_node s). rewrite Hn, Hs, Hd. reflexivity.
Qed.

Lemma localHelper_no_master timeout maxTimeout startTime p polls s node :
  the_node s = Some node ->
  slaveApiSetupComplete p = true ->
  masterResponds p = false ->
  deadline_passed maxTimeout startTime (dateNow p) = true ->
  localHelper timeout maxTimeout startTime (p :: polls) s =
  (log_error (logNow p) (msg_timed_out (getRosMasterUri node))
     (emit GetMasterUri (woken timeout s)),
   Rejected RegistryUnavailable).
Proof.
  intros Hn Hs Hm Hd. cbn [localHelper setTimeout].
  change (the_node (fire _ _)) with (the_node s). rewrite Hn, Hs, Hm, Hd. reflexivity.
Qed.

Lemma localHelper_connected timeout maxTimeout startTime p polls s node :
  the_node s = Some node ->
  slaveApiSetupComplete p = true ->
  masterResponds p = true ->
  localHelper timeout maxTimeout startTime (p :: polls) s =
  (set_pingMasterTimeout None
     (log_infoOnce (logNow p) (msg_connected (getRosMasterUri node))
        (emit GetMasterUri (woken timeout s))),
   Resolved tt).
Proof.
  intros Hn Hs Hm. cbn [localHelper setTimeout].
  change (the_node (fire _ _)) with (the_node s). rewrite Hn, Hs, Hm. reflexivity.
Qed.

Lemma localHelper_no_node timeout maxTimeout startTime p polls s :
  the_node s = None ->
  localHelper timeout maxTimeout startTime (p :: polls) s = (woken timeout s, Pending).
Proof.
  intros Hn. cbn [localHelper setTimeout].
  change (the_node (fire _ _)) with (the_node s). rewrite Hn. reflexivity.
Qed.

(** The loggers only add events. *)
Lemma log_warnThrottle_frame interval now msg s :
  heap (log_warnThrottle interval now msg s) = heap s /\
  rosNode (log_warnThrottle interval now msg s) = rosNode s /\
  time (log_warnThrottle interval now msg s) = time s /\
  timers (log_warnThrottle interval now msg s) = timers s /\
  pingMasterTimeout (log_warnThrottle interval now msg s) = pingMasterTimeout s.
Proof.
  unfold log_warnThrottle.
  destruct (last_stamp LWarn msg (events s)); [destruct (_ >=? _)|]; cbn; auto.
Qed.

Lemma log_infoOnce_frame now msg s :
  heap (log_infoOnce now msg s) = heap s /\
  rosNode (log_infoOnce now msg s) = rosNode s /\
  time (log_infoOnce now msg s) = time s.
Proof.
  unfold log_infoOnce. destruct (last_stamp LInfo msg (events s)); cbn; auto.
Qed.

Lemma retried_frame timeout p node s :
  heap (retried timeout p node s) = heap s /\
  rosNode (retried timeout p node s) = rosNode s /\
  time (retried timeout p node s) = time s.
Proof.
  unfold retried. destruct (negb (slaveApiSetupComplete p)); [cbn; auto|].
  destruct (log_warnThrottle_frame 60000 (logNow p)
              (msg_keep_trying (getRosMasterUri node))
              (emit GetMasterUri (woken timeout s))) as (H1 & H2 & H3 & _).
  rewrite H1, H2, H3. cbn; auto.
Qed.

Lemma the_node_retried timeout p node s :
  the_node (retried timeout p node s) = the_node s.
Proof.
  destruct (retried_frame timeout p node s) as (H1 & H2 & _).
  unfold the_node. rewrite H1, H2. reflexivity.
Qed.

(** Each firing either retries or settles the promise. *)
Lemma poll_cases maxTimeout startTime p :
  (fails p = true /\ deadline_passed maxTimeout startTime (dateNow p) = false) \/
  (slaveApiSetupComplete p = false /\ deadline_passed maxTimeout startTime (dateNow p) = true) \/
  (slaveApiSetupComplete p = true /\ masterResponds p = false /\
   deadline_passed maxTimeout startTime (dateNow p) = true) \/
  (slaveApiSetupComplete p = true /\ masterResponds p = true).
Proof.
  unfold fails.
  destruct (slaveApiSetupComplete p), (masterResponds p),
    (deadline_passed maxTimeout startTime (dateNow p)); cbn; auto 10.
Qed.

(** The loop touches neither the nodes nor the clock module. *)
Lemma localHelper_frame timeout maxTimeout startTime polls : forall s,
  heap (fst (localHelper timeout maxTimeout startTime polls s)) = heap s /\
  rosNode (fst (localHelper timeout maxTimeout startTime polls s)) = rosNode s /\
  time (fst (localHelper timeout maxTimeout startTime polls s)) = time s.
Proof.
  induction polls as [|p polls IH]; intros s.
  - rewrite localHelper_nil. cbn; auto.
  - destruct (the_node s) as [node|] eqn:Hn.
    + destruct (poll_cases maxTimeout startTime p)
        as [[Hf Hd]|[[Hs Hd]|[(Hs & Hm & Hd)|[Hs Hm]]]].
      * rewrite (localHelper_retry _ _ _ _ _ _ _ Hn Hf Hd).
        destruct (IH (retried timeout p node s)) as (H1 & H2 & H3).
        destruct (retried_frame timeout p node s) as (G1 & G2 & G3).
        rewrite H1, H2, H3. auto.
      * rewrite (localHelper_no_slave _ _ _ _ _ _ _ Hn Hs Hd). cbn; auto.
      * rewrite (localHelper_no_master _ _ _ _ _ _ _ Hn Hs Hm Hd). cbn; auto.
      * rewrite (localHelper_connected _ _ _ _ _ _ _ Hn Hs Hm). cbn.
        destruct (log_infoOnce_frame (logNow p) (msg_connected (getRosMasterUri node))
                    (emit GetMasterUri (woken timeout s))) as (H1 & H2 & H3).
        rewrite H1, H2, H3. cbn; auto.
    + rewrite (localHelper_no_node _ _ _ _ _ _ Hn). cbn; auto.
Qed.

(** The loggers leave the attempts and the timers' delays as they are. *)
Lemma log_warnThrottle_trace interval now msg s :
  attempts (events (log_warnThrottle interval now msg s)) = attempts (events s) /\
  delays (events (log_warnThrottle interval now msg s)) = delays (events s).
Proof.
  unfold log_warnThrottle.
  destruct (last_stamp LWarn msg (events s)); [destruct (_ >=? _)|]; cbn; auto.
Qed.

Lemma log_infoOnce_trace now msg s :
  attempts (events (log_infoOnce now msg s)) = attempts (events s) /\
  delays (events (log_infoOnce now msg s)) = delays (events s).
Proof.
  unfold log_infoOnce. destruct (last_stamp LInfo msg (events s)); cbn; auto.
Qed.

Lemma delays_retried timeout p node s :
  delays (events (retried timeout p node s)) = timeout :: delays (events s).
Proof.
  unfold retried. destruct (negb (slaveApiSetupComplete p)); [reflexivity|].
  destruct (log_warnThrottle_trace 60000 (logNow p)
              (msg_keep_trying (getRosMasterUri node))
              (emit GetMasterUri (woken timeout s))) as [_ H].
  rewrite H. reflexivity.
Qed.

(** With a negative [maxTimeout] the deadline never passes. *)
Lemma deadline_never maxTimeout startTime now :
  maxTimeout < 0 -> deadline_passed maxTimeout startTime now = false.
Proof.
  intros H. unfold deadline_passed.
  replace (maxTimeout <? 0) with true by (symmetry; apply Z.ltb_lt; exact H).
  apply andb_false_r.
Qed.

(** With [maxTimeout = 0] it has passed as soon as the clock is read, unless
    the clock went backwards. *)
Lemma deadline_at_once startTime now :
  startTime <= now -> deadline_passed 0 startTime now = true.
Proof.
  intros H. unfold deadline_passed. cbn [Z.ltb Z.compare negb].
  rewrite andb_true_r. apply Z.geb_le. lia.
Qed.

Lemma deadline_passed_true maxTimeout startTime now :
  0 <= maxTimeout -> maxTimeout <= now - startTime ->
  deadline_passed maxTimeout startTime now = true.
Proof.
  intros H0 H. unfold deadline_passed. apply andb_true_iff. split.
  - apply Z.geb_le. exact H.
  - apply negb_true_iff, Z.ltb_ge. exact H0.
Qed.

Lemma deadline_passed_false maxTimeout startTime now :
  now - startTime < maxTimeout ->
  deadline_passed maxTimeout startTime now = false.
Proof.
  intros H. unfold deadline_passed. apply andb_false_iff. left.
  rewrite Z.geb_leb. apply Z.leb_gt. exact H.
Qed.

(** Firings that fail before the deadline are skipped over. *)
Lemma localHelper_resolved_inv timeout maxTimeout startTime polls : forall s s',
  localHelper timeout maxTimeout startTime polls s = (s', Resolved tt) ->
  exists pre p post,
    polls = pre ++ p :: post /\
    Forall (fun q => fails q = true) pre /\
    slaveApiSetupComplete p = true /\ masterResponds p = true.
Proof.
  induction polls as [|p polls IH]; intros s s' H.
  - rewrite localHelper_nil in H. discriminate H.
  - destruct (the_node s) as [node|] eqn:Hn.
    + destruct (poll_cases maxTimeout startTime p)
        as [[Hf Hd]|[[Hs Hd]|[(Hs & Hm & Hd)|[Hs Hm]]]].
      * rewrite (localHelper_retry _ _ _ _ _ _ _ Hn Hf Hd) in H.
        destruct (IH _ _ H) as (pre & q & post & -> & Hpre & Hq).
        exists (p :: pre), q, post. split; [reflexivity|]. split; [|exact Hq].
        constructor; assumption.
      * rewrite (localHelper_no_slave _ _ _ _ _ _ _ Hn Hs Hd) in H. discriminate H.
      * rewrite (localHelper_no_master _ _ _ _ _ _ _ Hn Hs Hm Hd) in H. discriminate H.
      * exists [], p, polls. split; [reflexivity|]. split; [constructor|]. split; assumption.
    + rewrite (localHelper_no_node _ _ _ _ _ _ Hn) in H. discriminate H.
Qed.

Lemma localHelper_skip timeout maxTimeout startTime pre : forall rest s node,
  the_node s = Some node ->
  Forall (fun q => fails q = true /\
                   deadline_passed maxTimeout startTime (dateNow q) = false) pre ->
  exists s1,
    the_node s1 = Some node /\
    delays (events s1) = repeat timeout (length pre) ++ delays (events s) /\
    localHelper timeout maxTimeout startTime (pre ++ rest) s =
    localHelper timeout maxTimeout startTime rest s1.
Proof.
  induction pre as [|q pre IH]; intros rest s node Hn Hpre.
  - exists s. auto.
  - inversion Hpre as [|q' pre' [Hf Hd] Hpre']; subst.
    cbn [app]. rewrite (localHelper_retry _ _ _ _ _ _ _ Hn Hf Hd).
    destruct (IH rest (retried timeout q node s) node) as (s1 & Hn1 & Hdl & Heq).
    + rewrite the_node_retried. exact Hn.
    + exact Hpre'.
    + exists s1. split; [exact Hn1|]. split; [|exact Heq].
      rewrite Hdl, delays_retried. cbn [length].
      change (repeat timeout (S (length pre))) with (timeout :: repeat timeout (length pre)).
      rewrite (repeat_cons (length pre) timeout). rewrite <- app_assoc. reflexivity.
Qed.

Lemma localHelper_never_rejects timeout maxTimeout startTime polls :
  maxTimeout < 0 -> forall s e,
  snd (localHelper timeout maxTimeout startTime polls s) <> Rejected e.
Proof.
  intros Hneg. induction polls as [|p polls IH]; intros s e.
  - rewrite localHelper_nil. discriminate.
  - destruct (the_node s) as [node|] eqn:Hn.
    + destruct (slaveApiSetupComplete p && masterResponds p) eqn:Hb.
      * apply andb_true_iff in Hb as [Hs Hm].
        rewrite (localHelper_connected _ _ _ _ _ _ _ Hn Hs Hm). discriminate.
      * rewrite (localHelper_retry _ _ _ _ _ _ node Hn).
        -- apply IH.
        -- unfold fails. rewrite Hb. reflexivity.
        -- apply deadline_never, Hneg.
    + rewrite (localHelper_no_node _ _ _ _ _ _ Hn). discriminate.
Qed.

(** C1: the connect operation resolves only at a firing of its timer where
    the slave server has finished binding and the registry has answered
    (every firing before that one failed); and with a non-negative
    [maxWait], when the slave server is still not bound at the first firing
    that finds the deadline passed, nor at any firing before, the call
    fails with RegistrationTimeout. *)
Theorem connect_needs_slave_and_registry
    (timeout maxTimeout : option Z) (startTime : Z) (polls : list Poll) (s : Process) :
  (forall s',
     _checkMasterHelper timeout maxTimeout startTime polls s = (s', Resolved tt) ->
     exists pre p post,
       polls = pre ++ p :: post /\
       Forall (fun q => fails q = true) pre /\
       slaveApiSetupComplete p = true /\ masterResponds p = true) /\
  (forall maxWait node pre p post,
     maxTimeout = Some maxWait -> 0 <= maxWait ->
     the_node s = Some node ->
     polls = pre ++ p :: post ->
     Forall (fun q => slaveApiSetupComplete q = false /\
                      dateNow q - startTime < maxWait) pre ->
     slaveApiSetupComplete p = false ->
     maxWait <= dateNow p - startTime ->
     snd (_checkMasterHelper timeout maxTimeout startTime polls s) =
     Rejected RegistrationTimeout).
Proof.
  split.
  - intros s' H. unfold _checkMasterHelper in H.
    exact (localHelper_resolved_inv _ _ _ _ _ _ H).
  - intros maxWait node pre p post -> H0 Hn -> Hpre Hs Hd.
    unfold _checkMasterHelper. change (default (-1) (Some maxWait)) with maxWait.
    destruct (localHelper_skip (default 100 timeout) maxWait startTime pre
                (p :: post) s node Hn) as (s1 & Hn1 & _ & Heq).
    + eapply List.Forall_impl; [|exact Hpre]. cbn. intros q [Hq Hlt]. split.
      * unfold fails. rewrite Hq. reflexivity.
      * apply deadline_passed_false, Hlt.
    + rewrite Heq.
      rewrite (localHelper_no_slave _ _ _ _ _ _ _ Hn1 Hs
                 (deadline_passed_true _ _ _ H0 Hd)).
      reflexivity.
Qed.

(** C2, as the code has it: with [maxTimeout = 0], a slave server that has
    finished binding when the timer first fires, a clock that did not go
    backwards and a registry that does not answer that attempt, exactly one
    connection attempt is made, no further timer is armed and the call
    fails with RegistryUnavailable. *)
Theorem connect_once
    (timeout : option Z) (startTime : Z) (p : Poll) (polls : list Poll)
    (s : Process) (node : RosNode) :
  the_node s = Some node ->
  slaveApiSetupComplete p = true ->
  masterResponds p = false ->
  startTime <= dateNow p ->
  let r := _checkMasterHelper timeout (Some 0) startTime (p :: polls) s in
  snd r = Rejected RegistryUnavailable /\
  attempts (events (fst r)) = S (attempts (events s)) /\
  delays (events (fst r)) = default 100 timeout :: delays (events s).
Proof.
  intros Hn Hs Hm Hclock. unfold _checkMasterHelper.
  change (default (-1) (Some 0)) with 0.
  rewrite (localHelper_no_master _ _ _ _ _ _ _ Hn Hs Hm (deadline_at_once _ _ Hclock)).
  cbn. auto.
Qed.

(** C3: with a negative [maxTimeout] (or none given, which stands for -1)
    the call never fails; while every firing fails to reach the registry
    the promise stays pending, one timer of the same delay having been armed
    per firing and the newest still held; and the call resolves at the
    first firing whose connection attempt the registry answers. *)
Theorem connect_retries_forever
    (timeout maxTimeout : option Z) (startTime : Z) (pre : list Poll)
    (s : Process) (node : RosNode) :
  default (-1) maxTimeout < 0 ->
  the_node s = Some node ->
  Forall (fun q => fails q = true) pre ->
  (forall polls e,
     snd (_checkMasterHelper timeout maxTimeout startTime polls s) <> Rejected e) /\
  (let r := _checkMasterHelper timeout maxTimeout startTime pre s in
   snd r = Pending /\
   delays (events (fst r)) =
     repeat (default 100 timeout) (S (length pre)) ++ delays (events s) /\
   exists h, pingMasterTimeout (fst r) = Some h /\ In h (timers (fst r))) /\
  (forall p post,
     slaveApiSetupComplete p = true -> masterResponds p = true ->
     snd (_checkMasterHelper timeout maxTimeout startTime (pre ++ p :: post) s) =
     Resolved tt).
Proof.
  intros Hneg Hn Hpre. unfold _checkMasterHelper.
  assert (Hskip : Forall (fun q => fails q = true /\
            deadline_passed (default (-1) maxTimeout) startTime (dateNow q) = false) pre).
  { eapply List.Forall_impl; [|exact Hpre]. cbn. intros q Hq. split; [exact Hq|].
    apply deadline_never, Hneg. }
  split; [|split].
  - intros polls e. apply localHelper_never_rejects, Hneg.
  - destruct (localHelper_skip (default 100 timeout) (default (-1) maxTimeout)
                startTime pre [] s node Hn Hskip) as (s1 & Hn1 & Hdl & Heq).
    rewrite app_nil_r in Heq. rewrite Heq, localHelper_nil. cbn.
    split; [reflexivity|]. split.
    + rewrite Hdl.
      change (default 100 timeout :: repeat (default 100 timeout) (length pre) ++ delays (events s))
        with ((default 100 timeout :: repeat (default 100 timeout) (length pre)) ++ delays (events s)).
      reflexivity.
    + exists (timerSeq s1). split; [reflexivity|]. left. reflexivity.
  - intros p post Hs Hm.
    destruct (localHelper_skip (default 100 timeout) (default (-1) maxTimeout)
                startTime pre (p :: post) s node Hn Hskip) as (s1 & Hn1 & _ & Heq).
    rewrite Heq, (localHelper_connected _ _ _ _ _ _ _ Hn1 Hs Hm). reflexivity.
Qed.

Lemma connect_needs_slave_and_registry_witness :
  (exists pre p post,
     [poll_down 1100; poll_up 1200] = pre ++ p :: post /\
     Forall (fun q => fails q = true) pre /\
     slaveApiSetupComplete p = true /\ masterResponds p = true) /\
  snd (_checkMasterHelper (Some 100) (Some 150) 1000
         [poll_unbound 1100; poll_unbound 1200] sample_process) =
  Rejected RegistrationTimeout.
Proof.
  split.
  - eapply (proj1 (connect_needs_slave_and_registry (Some 100) None 1000
                     [poll_down 1100; poll_up 1200] sample_process)).
    reflexivity.
  - apply (proj2 (connect_needs_slave_and_registry (Some 100) (Some 150) 1000
                    [poll_unbound 1100; poll_unbound 1200] sample_process)
             150 sample_node [poll_unbound 1100] (poll_unbound 1200) []).
    + reflexivity.
    + lia.
    + reflexivity.
    + reflexivity.
    + constructor; [|constructor]. cbn. split; [reflexivity | lia].
    + reflexivity.
    + cbn. lia.
Defined.

(** C2 as worded fails: when the slave server is not bound at the only
    firing, no connection attempt is made at all and the call fails with
    RegistrationTimeout. *)
Lemma connect_once_counterexample : ~ connect_once_as_stated.
Proof.
  intros H.
  destruct (H (Some 100) 1000 (poll_unbound 1100) [] sample_process sample_node)
    as [Hrej _].
  - reflexivity.
  - reflexivity.
  - cbn. lia.
  - vm_compute in Hrej. discriminate Hrej.
Qed.

Lemma connect_once_witness :
  let r := _checkMasterHelper (Some 100) (Some 0) 1000 [poll_down 1100] sample_process in
  snd r = Rejected RegistryUnavailable /\
  attempts (events (fst r)) = 1%nat /\
  delays (events (fst r)) = [100].
Proof.
  apply (connect_once (Some 100) 1000 (poll_down 1100) [] sample_process sample_node).
  - reflexivity.
  - reflexivity.
  - reflexivity.
  - cbn. lia.
Defined.

Lemma connect_retries_forever_witness :
  (forall polls e,
     snd (_checkMasterHelper (Some 100) (Some (-1)) 1000 polls sample_process) <>
     Rejected e) /\
  (let r := _checkMasterHelper (Some 100) (Some (-1)) 1000
              [poll_unbound 1100; poll_down 1200; poll_down 1300] sample_process in
   snd r = Pending /\
   delays (events (fst r)) = [100; 100; 100; 100] /\
   exists h, pingMasterTimeout (fst r) = Some h /\ In h (timers (fst r))) /\
  (forall p post,
     slaveApiSetupComplete p = true -> masterResponds p = true ->
     snd (_checkMasterHelper (Some 100) (Some (-1)) 1000
            ([poll_unbound 1100; poll_down 1200; poll_down 1300] ++ p :: post)
            sample_process) = Resolved tt).
Proof.
  apply (connect_retries_forever (Some 100) (Some (-1)) 1000
           [poll_unbound 1100; poll_down 1200; poll_down 1300]
           sample_process sample_node).
  - cbn. lia.
  - reflexivity.
  - repeat constructor.
Defined.

(** *** Throttled warnings *)

Lemma last_stamp_new msg old new :
  warns_only msg new ->
  last_stamp LWarn msg (new ++ old) =
  match warn_stamps new with
  | t :: _ => Some t
  | [] => last_stamp LWarn msg old
  end.
Proof.
  induction new as [|ev new IH]; intros Hw; [reflexivity|].
  assert (Hw' : warns_only msg new).
  { intros e He. apply Hw. right. exact He. }
  destruct ev as [h d| |k|r|e]; cbn; try (apply IH; exact Hw').
  destruct (level e) eqn:Hl; cbn; try (apply IH; exact Hw').
  rewrite (Hw e (or_introl eq_refl) Hl), String.eqb_refl. reflexivity.
Qed.

Lemma throttled_start msg s : throttled_since (events s) msg s.
Proof.
  exists []. split; [reflexivity|]. split; [|constructor].
  intros e [].
Qed.

Lemma throttled_same_events old msg s s' :
  events s' = events s -> throttled_since old msg s -> throttled_since old msg s'.
Proof. intros He (new & H1 & H2). exists new. rewrite He. auto. Qed.

(** Any event that is not a warning keeps the invariant. *)
Lemma throttled_emit old msg ev s :
  warn_stamps [ev] = [] ->
  throttled_since old msg s -> throttled_since old msg (emit ev s).
Proof.
  intros Hev (new & He & Hw & Hs). exists (ev :: new). cbn. rewrite He.
  split; [reflexivity|]. split.
  - intros e [->|Hin] Hl; [|exact (Hw e Hin Hl)].
    cbn in Hev. rewrite Hl in Hev. discriminate Hev.
  - destruct ev as [h d| |k|r|e]; cbn; try exact Hs.
    cbn in Hev. destruct (level e); try exact Hs. discriminate Hev.
Qed.

Lemma throttled_warnThrottle old msg now s :
  throttled_since old msg s ->
  throttled_since old msg (log_warnThrottle 60000 now msg s).
Proof.
  intros (new & He & Hw & Hs). unfold log_warnThrottle.
  rewrite He, (last_stamp_new msg old new Hw).
  assert (Hw' : warns_only msg
            (Log {| level := LWarn; stamp := now; text := msg |} :: new)).
  { intros e [Heq|Hin] Hl; [|exact (Hw e Hin Hl)]. inversion Heq. reflexivity. }
  destruct (warn_stamps new) as [|t ts] eqn:Hst.
  - destruct (last_stamp LWarn msg old); [destruct (_ >=? _)|].
    + exists (Log {| level := LWarn; stamp := now; text := msg |} :: new).
      cbn. rewrite He, Hst. split; [reflexivity|]. split; [exact Hw'|]. repeat constructor.
    + exists new. rewrite Hst. auto.
    + exists (Log {| level := LWarn; stamp := now; text := msg |} :: new).
      cbn. rewrite He, Hst. split; [reflexivity|]. split; [exact Hw'|]. repeat constructor.
  - destruct (now - t >=? 60000) eqn:Hge.
    + exists (Log {| level := LWarn; stamp := now; text := msg |} :: new).
      cbn. rewrite He, Hst. split; [reflexivity|]. split; [exact Hw'|].
      constructor; [exact Hs|]. constructor. unfold apart.
      apply Z.geb_le in Hge. lia.
    + exists new. rewrite Hst. auto.
Qed.

Lemma throttled_woken old msg timeout s :
  throttled_since old msg s -> throttled_since old msg (woken timeout s).
Proof.
  intros H. apply (throttled_same_events old msg (emit (SetTimeout (timerSeq s) timeout) s)).
  - reflexivity.
  - apply throttled_emit; [reflexivity | exact H].
Qed.

Lemma throttled_infoOnce old msg now txt s :
  throttled_since old msg s -> throttled_since old msg (log_infoOnce now txt s).
Proof.
  intros H. unfold log_infoOnce. destruct (last_stamp LInfo txt (events s)); [exact H|].
  apply throttled_emit; [reflexivity | exact H].
Qed.

Lemma throttled_retried old timeout p node s :
  throttled_since old (msg_keep_trying (getRosMasterUri node)) s ->
  throttled_since old (msg_keep_trying (getRosMasterUri node)) (retried timeout p node s).
Proof.
  intros H. unfold retried. destruct (negb (slaveApiSetupComplete p)).
  - apply throttled_woken, H.
  - apply throttled_warnThrottle, throttled_emit; [reflexivity|].
    apply throttled_woken, H.
Qed.

Lemma throttled_localHelper old timeout maxTimeout startTime node polls : forall s,
  the_node s = Some node ->
  throttled_since old (msg_keep_trying (getRosMasterUri node)) s ->
  throttled_since old (msg_keep_trying (getRosMasterUri node))
    (fst (localHelper timeout maxTimeout startTime polls s)).
Proof.
  induction polls as [|p polls IH]; intros s Hn H.
  - rewrite localHelper_nil. cbn [fst].
    apply (throttled_same_events old _ (emit (SetTimeout (timerSeq s) timeout) s));
      [reflexivity|].
    apply throttled_emit; [reflexivity | exact H].
  - destruct (poll_cases maxTimeout startTime p)
      as [[Hf Hd]|[[Hs Hd]|[(Hs & Hm & Hd)|[Hs Hm]]]].
    + rewrite (localHelper_retry _ _ _ _ _ _ _ Hn Hf Hd). apply IH.
      * rewrite the_node_retried. exact Hn.
      * apply throttled_retried, H.
    + rewrite (localHelper_no_slave _ _ _ _ _ _ _ Hn Hs Hd). cbn [fst].
      apply throttled_emit; [reflexivity|]. apply throttled_woken, H.
    + rewrite (localHelper_no_master _ _ _ _ _ _ _ Hn Hs Hm Hd). cbn [fst].
      apply throttled_emit; [reflexivity|]. apply throttled_emit; [reflexivity|].
      apply throttled_woken, H.
    + rewrite (localHelper_connected _ _ _ _ _ _ _ Hn Hs Hm). cbn [fst].
      apply (throttled_same_events old _
               (log_infoOnce (logNow p) (msg_connected (getRosMasterUri node))
                  (emit GetMasterUri (woken timeout s)))); [reflexivity|].
      apply throttled_infoOnce. apply throttled_emit; [reflexivity|].
      apply throttled_woken, H.
Qed.

(** Stamps that are pairwise at least [d] apart: at most one per window. *)
Lemma count_in_window_none w d l :
  Forall (fun b => b < w) l -> count_in_window w d l = O.
Proof.
  unfold count_in_window. induction 1 as [|b l Hb _ IH]; [reflexivity|].
  cbn. unfold in_window at 1.
  replace (w <=? b) with false by (symmetry; apply Z.leb_gt; exact Hb).
  exact IH.
Qed.

Lemma count_in_window_apart w d l :
  0 <= d -> Sorted (apart d) l -> (count_in_window w d l <= 1)%nat.
Proof.
  intros Hd Hs. apply Sorted_StronglySorted in Hs.
  2:{ intros a b c Hab Hbc. unfold apart in *. lia. }
  induction Hs as [|a l Hs IH Hall]; [cbn; lia|].
  unfold count_in_window in *. cbn [List.filter].
  destruct (in_window w d a) eqn:Ha; [|exact IH].
  cbn [length]. fold (count_in_window w d l).
  rewrite count_in_window_none; [lia|].
  eapply List.Forall_impl; [|exact Hall]. cbn. intros b Hb. unfold apart in Hb.
  unfold in_window in Ha. apply andb_true_iff in Ha as [_ Ha].
  apply Z.ltb_lt in Ha. lia.
Qed.

(** C9: among the events one run of the retry loop adds, whatever the
    number of failed attempts, at most one warning falls in any window of
    60 seconds of the logger's clock. *)
Theorem warnings_throttled
    (timeout maxTimeout : option Z) (startTime : Z) (polls : list Poll)
    (s : Process) :
  exists new,
    events (fst (_checkMasterHelper timeout maxTimeout startTime polls s)) =
      new ++ events s /\
    forall w, (count_in_window w 60000 (warn_stamps new) <= 1)%nat.
Proof.
  unfold _checkMasterHelper.
  destruct (the_node s) as [node|] eqn:Hn.
  - destruct (throttled_localHelper (events s) (default 100 timeout)
                (default (-1) maxTimeout) startTime node polls s Hn
                (throttled_start _ s)) as (new & He & _ & Hs).
    exists new. split; [exact He|].
    intros w. apply count_in_window_apart; [lia | exact Hs].
  - exists [SetTimeout (timerSeq s) (default 100 timeout)]. split.
    + destruct polls as [|p polls].
      * rewrite localHelper_nil. reflexivity.
      * rewrite (localHelper_no_node _ _ _ _ _ _ Hn). reflexivity.
    + intros w. cbn. lia.
Qed.

(** *** The timer the loop holds *)

Lemma timers_woken timeout s : timers s = [] -> timers (woken timeout s) = [].
Proof.
  intros H. unfold woken, fire, setTimeout. cbn. rewrite H.
  unfold drop_timer. cbn. rewrite Nat.eqb_refl. reflexivity.
Qed.

Lemma timers_retried timeout p node s :
  timers s = [] -> timers (retried timeout p node s) = [].
Proof.
  intros H. unfold retried. destruct (negb (slaveApiSetupComplete p)).
  - apply timers_woken, H.
  - destruct (log_warnThrottle_frame 60000 (logNow p)
                (msg_keep_trying (getRosMasterUri node))
                (emit GetMasterUri (woken timeout s))) as (_ & _ & _ & Ht & _).
    rewrite Ht. apply timers_woken, H.
Qed.


End Connect.

(** ** Shutdown *)

Module Shutdown.






(** Once [rosNode.shutdown()] has run, [ok()] is false. *)
Lemma ok_rosNode_shutdown s : ok s = true -> ok (rosNode_shutdown s) = false.
Proof.
  unfold ok, the_node, rosNode_shutdown.
  destruct (rosNode s) as [r|] eqn:Hr; [|discriminate].
  destruct (heap s !! r) as [n|] eqn:Hl; [|discriminate].
  intros _. cbn. rewrite Hr.
  rewrite list_lookup_insert_eq by (eapply lookup_lt_Some; exact Hl).
  reflexivity.
Qed.


Lemma clearTimeout_frame x s :
  pingMasterTimeout (clearTimeout x s) = pingMasterTimeout s /\
  ok (clearTimeout x s) = ok s.
Proof. destruct x; split; reflexivity. Qed.


Lemma timers_rosNode_shutdown s : timers (rosNode_shutdown s) = timers s.
Proof.
  unfold rosNode_shutdown. destruct (rosNode s) as [r|]; [|reflexivity].
  destruct (heap s !! r); reflexivity.
Qed.




End Shutdown.

(** ** Node initialisation *)

Module Node.

Lemma validated_starts_with_slash nodeName :
  startsWith_slash (_validateNodeName nodeName) = true.
Proof.
  unfold _validateNodeName.
  destruct (startsWith_slash nodeName) eqn:H; cbn [negb]; [exact H|].
  unfold startsWith_slash. cbn. destruct nodeName; reflexivity.
Qed.

Lemma same_nodes_refl s : same_nodes s s.
Proof. split; reflexivity. Qed.

Lemma same_nodes_trans s1 s2 s3 :
  same_nodes s1 s2 -> same_nodes s2 s3 -> same_nodes s1 s3.
Proof. intros [H1 H2] [H3 H4]. split; congruence. Qed.

Lemma same_nodes_and_then {A B : Type} (r : Process * Promise A)
    (f : A -> Process -> Process * Promise B) s :
  same_nodes s (fst r) ->
  (forall a s1, same_nodes s1 (fst (f a s1))) ->
  same_nodes s (fst (and_then r f)).
Proof.
  intros Hr Hf. destruct r as [s1 [|a|e]]; cbn in *; try exact Hr.
  eapply same_nodes_trans; [exact Hr | apply Hf].
Qed.

Lemma same_nodes_settled o s : same_nodes s (fst (settled o s)).
Proof. destruct o; apply same_nodes_refl. Qed.

Lemma same_nodes_checkMasterHelper timeout maxTimeout startTime polls s :
  same_nodes s (fst (_checkMasterHelper timeout maxTimeout startTime polls s)).
Proof.
  unfold _checkMasterHelper.
  destruct (Connect.localHelper_frame (default 100 timeout) (default (-1) maxTimeout)
              startTime polls s) as (H1 & H2 & _).
  split; assumption.
Qed.

Lemma same_nodes_before_clock options env s :
  same_nodes s (fst (before_clock options env s)).
Proof.
  unfold before_clock. apply same_nodes_and_then.
  - unfold _loadOnTheFlyMessages. destruct (onTheFly options);
      [apply same_nodes_settled | apply same_nodes_refl].
  - intros _ s1. apply same_nodes_and_then.
    + apply same_nodes_checkMasterHelper.
    + intros _ s2. apply same_nodes_settled.
Qed.


Lemma same_nodes_initializeRosTime tenv notime s :
  same_nodes s (fst (_initializeRosTime tenv notime s)).
Proof.
  unfold _initializeRosTime. destruct notime; [apply same_nodes_refl|].
  destruct (getParam_use_sim_time tenv) as [val|err].
  - unfold on_use_sim_time. destruct (truthy val); [|split; reflexivity].
    destruct (subscribe_throws tenv) as [e|]; cbn.
    + destruct (statusCode e); split; reflexivity.
    + split; reflexivity.
  - cbn. destruct (statusCode err); split; reflexivity.
Qed.

(** Shutting down keeps the reference and the name of the node. *)
Lemma shutdown_keeps_name closing s node :
  the_node s = Some node ->
  rosNode (fst (shutdown closing s)) = rosNode s /\
  exists node',
    the_node (fst (shutdown closing s)) = Some node' /\
    getNodeName node' = getNodeName node.
Proof.
  intros Hn. unfold shutdown.
  assert (Hc : the_node (clearTimeout (pingMasterTimeout s) s) = Some node).
  { destruct (pingMasterTimeout s); exact Hn. }
  assert (Hr : rosNode (clearTimeout (pingMasterTimeout s) s) = rosNode s).
  { destruct (pingMasterTimeout s); reflexivity. }
  destruct (ok _); cbn [fst]; [|split; [exact Hr | exists node; auto]].
  revert Hc Hr. generalize (clearTimeout (pingMasterTimeout s) s). intros c Hc Hr.
  unfold the_node in Hc. unfold rosNode_shutdown, the_node.
  destruct (rosNode c) as [r|] eqn:Hrc; [|discriminate Hc]. rewrite Hc. cbn.
  split; [congruence|]. exists (RosNode_shutdown node). rewrite Hrc.
  rewrite list_lookup_insert_eq by (eapply lookup_lt_Some; exact Hc).
  split; reflexivity.
Qed.

Lemma the_node_same_nodes s s' : same_nodes s s' -> the_node s' = the_node s.
Proof. intros [H1 H2]. unfold the_node. rewrite H1, H2. reflexivity. Qed.

(** The startup chain, failing or not, keeps the reference and the name. *)
Lemma startup_keeps_name options env s node :
  the_node s = Some node ->
  rosNode (fst (startup options env s)) = rosNode s /\
  exists node',
    the_node (fst (startup options env s)) = Some node' /\
    getNodeName node' = getNodeName node.
Proof.
  intros Hn. unfold startup.
  set (r := and_then (before_clock options env s) _).
  assert (Hr : same_nodes s (fst r)).
  { subst r. apply same_nodes_and_then; [apply same_nodes_before_clock|].
    intros _ s1. apply same_nodes_and_then; [apply same_nodes_initializeRosTime|].
    intros _ s2. apply same_nodes_refl. }
  destruct r as [s1 [|h|err]]; cbn [fst] in *;
    try (split; [apply Hr | exists node; rewrite (the_node_same_nodes _ _ Hr); auto]).
  destruct (shutdown_keeps_name (closing env)
              (log_error (catchNow env)
                 ("Error during initialization: Error: " +:+ message err) s1) node)
    as [H1 H2].
  - change (the_node (log_error _ _ s1)) with (the_node s1).
    rewrite (the_node_same_nodes _ _ Hr). exact Hn.
  - split; [|exact H2]. rewrite H1. apply Hr.
Qed.

Lemma the_node_create_node nodeName options env s :
  the_node (create_node nodeName options env s) =
  Some (new_RosNode nodeName (chosen_master_uri options env)).
Proof.
  unfold the_node, create_node. cbn. apply list_lookup_middle. reflexivity.
Qed.

(** C6: when a node exists, an [initNode] whose name (anonymized if asked,
    then validated) differs from the existing node's is rejected with
    DuplicateNodeName, and the process, the existing node included, is left
    exactly as it was. *)
Theorem initNode_other_name
    (nodeName : string) (options : Options) (env : Env) (s : Process)
    (r : nat) (node : RosNode) :
  rosNode s = Some r ->
  heap s !! r = Some node ->
  resolved_name nodeName options env <> getNodeName node ->
  initNode nodeName options env s =
  (s, Rejected (DuplicateNodeName (resolved_name nodeName options env)
                  (getNodeName node))).
Proof.
  intros Hr Hl Hne. unfold initNode. rewrite Hr, Hl.
  apply String.eqb_neq in Hne. rewrite Hne. reflexivity.
Qed.

Lemma initNode_other_name_witness :
  initNode "listener" no_options sample_env sample_process =
  (sample_process, Rejected (DuplicateNodeName "/listener" "/talker")).
Proof.
  apply (initNode_other_name "listener" no_options sample_env sample_process
           O sample_node).
  - reflexivity.
  - reflexivity.
  - cbn. discriminate.
Defined.

(** C10: when a node exists, an [initNode] whose name (anonymized if asked,
    then validated) equals the existing node's resolves with a handle that
    refers to that node and leaves the process exactly as it was: no node
    is created, no timer armed, no connection attempt made. *)
Theorem initNode_same_name
    (nodeName : string) (options : Options) (env : Env) (s : Process)
    (r : nat) (node : RosNode) :
  rosNode s = Some r ->
  heap s !! r = Some node ->
  resolved_name nodeName options env = getNodeName node ->
  initNode nodeName options env s =
  (s, Resolved {| nh_node := Some r; nh_namespace := None |}).
Proof.
  intros Hr Hl He. unfold initNode, getNodeHandle. rewrite Hr, Hl, He.
  rewrite String.eqb_refl. reflexivity.
Qed.

Lemma initNode_same_name_witness :
  let s := fst (initNode "talker" no_options sample_env Process_init) in
  initNode "/talker" no_options sample_env s =
  (s, Resolved {| nh_node := Some O; nh_namespace := None |}).
Proof.
  apply (initNode_same_name "/talker" no_options sample_env
           (fst (initNode "talker" no_options sample_env Process_init)) O
           (new_RosNode "/talker" (Some "http://localhost:11311"))).
  - reflexivity.
  - reflexivity.
  - reflexivity.
Defined.

(** C8: the node a first [initNode] creates, whether or not the name was
    anonymized and whether or not startup then succeeds, has a name that
    starts with '/'. *)
Theorem created_node_name_starts_with_slash
    (nodeName : string) (options : Options) (env : Env) (s : Process) :
  rosNode s = None ->
  exists node,
    rosNode (fst (initNode nodeName options env s)) = Some (length (heap s)) /\
    the_node (fst (initNode nodeName options env s)) = Some node /\
    getNodeName node = resolved_name nodeName options env /\
    startsWith_slash (getNodeName node) = true.
Proof.
  intros Hnone. unfold initNode. rewrite Hnone.
  destruct (startup_keeps_name options env
              (create_node (resolved_name nodeName options env) options env s)
              _ (the_node_create_node _ options env s))
    as (Hr & node' & Hn & Hname).
  exists node'. split; [rewrite Hr; reflexivity|]. split; [exact Hn|].
  rewrite Hname. cbn [getNodeName new_RosNode _nodeName].
  split; [reflexivity|]. apply validated_starts_with_slash.
Qed.

Lemma created_node_name_starts_with_slash_witness :
  exists node,
    rosNode (fst (initNode "talker" only_anonymous sample_env Process_init)) =
      Some O /\
    the_node (fst (initNode "talker" only_anonymous sample_env Process_init)) =
      Some node /\
    getNodeName node = "/talker_4242_1000" /\
    startsWith_slash (getNodeName node) = true.
Proof.
  apply (created_node_name_starts_with_slash "talker" only_anonymous sample_env
           Process_init).
  reflexivity.
Defined.




End Node.

(** ** The simulated clock *)

Module Clock.

Lemma run_time_app calls1 : forall calls2 t,
  run_time (calls1 ++ calls2) t =
  (fst (run_time calls1 t) ++ fst (run_time calls2 (snd (run_time calls1 t))),
   snd (run_time calls2 (snd (run_time calls1 t)))).
Proof.
  induction calls1 as [|[msg|wall] calls1 IH]; intros calls2 t; cbn [app run_time].
  - cbn. destruct (run_time calls2 t); reflexivity.
  - apply IH.
  - rewrite IH. destruct (run_time calls1 t) as [vs t1]. reflexivity.
Qed.

(** Only a delivery changes [simTime]; nothing changes the mode. *)
Lemma run_time_state calls : forall t,
  simTime (snd (run_time calls t)) = latest_clock calls (simTime t) /\
  useSimTime (snd (run_time calls t)) = useSimTime t.
Proof.
  induction calls as [|[msg|wall] calls IH]; intros t; cbn [run_time latest_clock].
  - split; reflexivity.
  - destruct (IH (handleSimTimeMessage msg t)) as [H1 H2]. split; assumption.
  - destruct (IH t) as [H1 H2]. destruct (run_time calls t). split; assumption.
Qed.

Lemma latest_clock_no_delivery calls : forall d,
  (forall msg, ~ In (Deliver msg) calls) -> latest_clock calls d = d.
Proof.
  induction calls as [|[msg|wall] calls IH]; intros d H; cbn [latest_clock].
  - reflexivity.
  - exfalso. apply (H msg). left. reflexivity.
  - apply IH. intros msg Hin. apply (H msg). right. exact Hin.
Qed.

(** C5: in simulated mode, a [now()] called after the deliveries and
    readings [pre] returns the clock of the last message delivered among
    them, or what [simTime] held before them if there was none, which is the
    zero time when it still holds its initial value; the call itself leaves
    Time.js as it was, and the wall clock has no part in the value. *)
Theorem sim_time_now (t : TimeState) (pre : list TimeCall) (wall : RosTime) :
  truthy (useSimTime t) = true ->
  fst (run_time (pre ++ [CallNow wall]) t) =
    fst (run_time pre t) ++ [latest_clock pre (simTime t)] /\
  snd (run_time (pre ++ [CallNow wall]) t) = snd (run_time pre t) /\
  (simTime t = simTime Time_init ->
   (forall msg, ~ In (Deliver msg) pre) ->
   latest_clock pre (simTime t) = zeroTime).
Proof.
  intros Hsim. rewrite run_time_app. cbn [fst snd run_time].
  destruct (run_time_state pre t) as [Hs Hu].
  split; [|split].
  - unfold now. rewrite Hu, Hsim, Hs. reflexivity.
  - reflexivity.
  - intros H0 Hno. rewrite (latest_clock_no_delivery pre _ Hno), H0. reflexivity.
Qed.

Lemma sim_time_now_witness :
  let t := time (fst (_initializeRosTime sample_sim false Process_init)) in
  let tick := {| clock := {| secs := 7; nsecs := 500 |} |} in
  let wall := {| secs := 1700000000; nsecs := 0 |} in
  fst (run_time ([CallNow wall; Deliver tick; CallNow wall] ++ [CallNow wall]) t) =
    [zeroTime; clock tick] ++ [clock tick] /\
  snd (run_time ([CallNow wall] ++ [CallNow wall]) t) = t /\
  latest_clock [CallNow wall] (simTime t) = zeroTime.
Proof.
  cbn zeta.
  pose proof (sim_time_now
                (time (fst (_initializeRosTime sample_sim false Process_init)))
                [CallNow {| secs := 1700000000; nsecs := 0 |};
                 Deliver {| clock := {| secs := 7; nsecs := 500 |} |};
                 CallNow {| secs := 1700000000; nsecs := 0 |}]
                {| secs := 1700000000; nsecs := 0 |} eq_refl) as (H1 & _ & _).
  pose proof (sim_time_now
                (time (fst (_initializeRosTime sample_sim false Process_init)))
                [CallNow {| secs := 1700000000; nsecs := 0 |}]
                {| secs := 1700000000; nsecs := 0 |} eq_refl) as (_ & H2 & H3).
  split; [exact H1|]. split; [exact H2|].
  apply H3; [reflexivity|].
  intros msg [Hin|[]]. discriminate Hin.
Defined.

End Clock.

(** ** More on the retry loop *)

Module Retry.

Import Connect.

Lemma attempts_retried timeout p node s :
  attempts (events (retried timeout p node s)) =
  ((if slaveApiSetupComplete p then 1 else 0) + attempts (events s))%nat.
Proof.
  unfold retried. destruct (slaveApiSetupComplete p); cbn [negb]; [|reflexivity].
  destruct (log_warnThrottle_trace 60000 (logNow p)
              (msg_keep_trying (getRosMasterUri node))
              (emit GetMasterUri (woken timeout s))) as [H _].
  rewrite H. reflexivity.
Qed.

(** Skipping the failed firings before the deadline, counting the attempts. *)
Lemma localHelper_skip_attempts timeout maxTimeout startTime pre : forall rest s node,
  the_node s = Some node ->
  Forall (fun q => fails q = true /\
                   deadline_passed maxTimeout startTime (dateNow q) = false) pre ->
  exists s1,
    the_node s1 = Some node /\
    attempts (events s1) = (asked pre + attempts (events s))%nat /\
    localHelper timeout maxTimeout startTime (pre ++ rest) s =
    localHelper timeout maxTimeout startTime rest s1.
Proof.
  induction pre as [|q pre IH]; intros rest s node Hn Hpre.
  - exists s. auto.
  - inversion Hpre as [|q' pre' [Hf Hd] Hpre']; subst.
    cbn [app]. rewrite (localHelper_retry _ _ _ _ _ _ _ Hn Hf Hd).
    destruct (IH rest (retried timeout q node s) node) as (s1 & Hn1 & Ha & Heq).
    + rewrite the_node_retried. exact Hn.
    + exact Hpre'.
    + exists s1. split; [exact Hn1|]. split; [|exact Heq].
      rewrite Ha, attempts_retried. unfold asked. cbn [List.filter].
      destruct (slaveApiSetupComplete q); cbn [length]; lia.
Qed.

(** With a deadline, a bound slave server and a registry that stays silent,
    the call asks once per firing and gives up with RegistryUnavailable at
    the first firing that finds the deadline passed. *)
Theorem connect_gives_up_at_deadline
    (timeout : option Z) (maxWait startTime : Z) (pre : list Poll) (p : Poll)
    (post : list Poll) (s : Process) (node : RosNode) :
  0 <= maxWait ->
  the_node s = Some node ->
  Forall (fun q => slaveApiSetupComplete q = true /\ masterResponds q = false /\
                   dateNow q - startTime < maxWait) pre ->
  slaveApiSetupComplete p = true ->
  masterResponds p = false ->
  maxWait <= dateNow p - startTime ->
  let r := _checkMasterHelper timeout (Some maxWait) startTime (pre ++ p :: post) s in
  snd r = Rejected RegistryUnavailable /\
  attempts (events (fst r)) = (S (length pre) + attempts (events s))%nat.
Proof.
  intros H0 Hn Hpre Hs Hm Hd. unfold _checkMasterHelper.
  change (default (-1) (Some maxWait)) with maxWait.
  assert (Hasked : asked pre = length pre).
  { unfold asked. clear -Hpre. induction Hpre as [|q pre (Hq & _) _ IH]; [reflexivity|].
    cbn [List.filter]. rewrite Hq. cbn [length]. rewrite IH. reflexivity. }
  destruct (localHelper_skip_attempts (default 100 timeout) maxWait startTime pre
              (p :: post) s node Hn) as (s1 & Hn1 & Ha & Heq).
  - eapply List.Forall_impl; [|exact Hpre]. cbn. intros q (Hq1 & Hq2 & Hq3). split.
    + unfold fails. rewrite Hq1, Hq2. reflexivity.
    + apply deadline_passed_false, Hq3.
  - cbn zeta. rewrite Heq.
    rewrite (localHelper_no_master _ _ _ _ _ _ _ Hn1 Hs Hm
               (deadline_passed_true _ _ _ H0 Hd)).
    cbn. rewrite Ha, Hasked. split; [reflexivity | lia].
Qed.

Lemma connect_gives_up_at_deadline_witness :
  let r := _checkMasterHelper (Some 100) (Some 250) 1000
             ([poll_down 1100; poll_down 1200] ++ poll_down 1300 :: [poll_up 1400])
             sample_process in
  snd r = Rejected RegistryUnavailable /\
  attempts (events (fst r)) = 3%nat.
Proof.
  apply (connect_gives_up_at_deadline (Some 100) 250 1000
           [poll_down 1100; poll_down 1200] (poll_down 1300) [poll_up 1400]
           sample_process sample_node).
  - lia.
  - reflexivity.
  - repeat constructor; cbn; lia.
  - reflexivity.
  - reflexivity.
  - cbn. lia.
Defined.

(** A longer deadline, or none, never turns a connection that succeeded
    into a failure. *)
Lemma deadline_passed_mono maxWait maxWait' startTime now :
  (0 <= maxWait <= maxWait') \/ maxWait' < 0 ->
  deadline_passed maxWait startTime now = false ->
  deadline_passed maxWait' startTime now = false.
Proof.
  intros [[H0 Hle]|Hneg] H; [|apply deadline_never, Hneg].
  unfold deadline_passed in *. apply andb_false_iff in H as [H|H].
  - apply andb_false_iff. left. rewrite Z.geb_leb in *.
    apply Z.leb_gt in H. apply Z.leb_gt. lia.
  - apply negb_false_iff, Z.ltb_lt in H. lia.
Qed.

Theorem connect_longer_deadline
    (timeout : option Z) (maxWait maxWait' startTime : Z) (polls : list Poll)
    (s : Process) :
  (0 <= maxWait <= maxWait') \/ maxWait' < 0 ->
  snd (_checkMasterHelper timeout (Some maxWait) startTime polls s) = Resolved tt ->
  snd (_checkMasterHelper timeout (Some maxWait') startTime polls s) = Resolved tt.
Proof.
  intros Hm. unfold _checkMasterHelper.
  change (default (-1) (Some maxWait)) with maxWait.
  change (default (-1) (Some maxWait')) with maxWait'.
  generalize (default 100 timeout). intros t. revert s.
  induction polls as [|p polls IH]; intros s H.
  - rewrite localHelper_nil in H. discriminate H.
  - destruct (the_node s) as [node|] eqn:Hn.
    + destruct (poll_cases maxWait startTime p)
        as [[Hf Hd]|[[Hs Hd]|[(Hs & Hmr & Hd)|[Hs Hmr]]]].
      * rewrite (localHelper_retry _ _ _ _ _ _ _ Hn Hf Hd) in H.
        rewrite (localHelper_retry _ _ _ _ _ _ _ Hn Hf
                   (deadline_passed_mono _ _ _ _ Hm Hd)).
        apply IH, H.
      * rewrite (localHelper_no_slave _ _ _ _ _ _ _ Hn Hs Hd) in H. discriminate H.
      * rewrite (localHelper_no_master _ _ _ _ _ _ _ Hn Hs Hmr Hd) in H. discriminate H.
      * rewrite (localHelper_connected _ _ _ _ _ _ _ Hn Hs Hmr). reflexivity.
    + rewrite (localHelper_no_node _ _ _ _ _ _ Hn) in H. discriminate H.
Qed.

Lemma connect_longer_deadline_witness :
  snd (_checkMasterHelper (Some 100) (Some 5000) 1000
         [poll_down 1100; poll_unbound 1200; poll_up 1300] sample_process) =
  Resolved tt.
Proof.
  apply (connect_longer_deadline (Some 100) 500 5000 1000
           [poll_down 1100; poll_unbound 1200; poll_up 1300] sample_process).
  - left. lia.
  - reflexivity.
Defined.

Lemma error_lines_warnThrottle interval now msg s :
  error_lines (events (log_warnThrottle interval now msg s)) = error_lines (events s).
Proof.
  unfold log_warnThrottle.
  destruct (last_stamp LWarn msg (events s)); [destruct (_ >=? _)|]; reflexivity.
Qed.

Lemma error_lines_infoOnce now msg s :
  error_lines (events (log_infoOnce now msg s)) = error_lines (events s).
Proof.
  unfold log_infoOnce. destruct (last_stamp LInfo msg (events s)); reflexivity.
Qed.

Lemma error_lines_retried timeout p node s :
  error_lines (events (retried timeout p node s)) = error_lines (events s).
Proof.
  unfold retried. destruct (negb (slaveApiSetupComplete p)); [reflexivity|].
  rewrite error_lines_warnThrottle. reflexivity.
Qed.

(** The state a run of the loop ends in, by outcome. *)
Lemma localHelper_settles t m startTime node polls : forall s,
  timers s = [] ->
  the_node s = Some node ->
  match snd (localHelper t m startTime polls s) with
  | Resolved _ =>
      timers (fst (localHelper t m startTime polls s)) = [] /\
      pingMasterTimeout (fst (localHelper t m startTime polls s)) = None /\
      error_lines (events (fst (localHelper t m startTime polls s))) =
        error_lines (events s)
  | Rejected _ =>
      timers (fst (localHelper t m startTime polls s)) = [] /\
      error_lines (events (fst (localHelper t m startTime polls s))) =
        S (error_lines (events s))
  | Pending =>
      (exists h,
         pingMasterTimeout (fst (localHelper t m startTime polls s)) = Some h /\
         timers (fst (localHelper t m startTime polls s)) = [h]) /\
      error_lines (events (fst (localHelper t m startTime polls s))) =
        error_lines (events s)
  end.
Proof.
  induction polls as [|p polls IH]; intros s Ht Hn.
  - rewrite localHelper_nil. cbn. rewrite Ht. split; [|reflexivity].
    exists (timerSeq s). auto.
  - destruct (poll_cases m startTime p)
      as [[Hf Hd]|[[Hs Hd]|[(Hs & Hm & Hd)|[Hs Hm]]]].
    + rewrite (localHelper_retry _ _ _ _ _ _ _ Hn Hf Hd).
      specialize (IH (retried t p node s) (timers_retried t p node s Ht)).
      rewrite the_node_retried, error_lines_retried in IH. exact (IH Hn).
    + rewrite (localHelper_no_slave _ _ _ _ _ _ _ Hn Hs Hd). cbn [fst snd].
      split; [apply (timers_woken t s Ht) | reflexivity].
    + rewrite (localHelper_no_master _ _ _ _ _ _ _ Hn Hs Hm Hd). cbn [fst snd].
      split; [apply (timers_woken t s Ht) | reflexivity].
    + rewrite (localHelper_connected _ _ _ _ _ _ _ Hn Hs Hm). cbn [fst snd].
      split; [|split; [reflexivity|]].
      * unfold log_infoOnce. destruct (last_stamp _ _ _); apply (timers_woken t s Ht).
      * change (events (set_pingMasterTimeout None ?x)) with (events x).
        rewrite error_lines_infoOnce. reflexivity.
Qed.

(** Started with no timer held and a node in place: a resolved call holds
    no timer and has cleared [pingMasterTimeout]; a rejected call holds no
    timer either and has written exactly one error line; a call still
    pending holds exactly one timer, the one [pingMasterTimeout] refers to.
    Only a rejection writes an error line. *)
Theorem connect_leaves_no_timer
    (timeout maxTimeout : option Z) (startTime : Z) (polls : list Poll)
    (s : Process) (node : RosNode) :
  timers s = [] ->
  the_node s = Some node ->
  let r := _checkMasterHelper timeout maxTimeout startTime polls s in
  match snd r with
  | Resolved _ =>
      timers (fst r) = [] /\ pingMasterTimeout (fst r) = None /\
      error_lines (events (fst r)) = error_lines (events s)
  | Rejected _ =>
      timers (fst r) = [] /\
      error_lines (events (fst r)) = S (error_lines (events s))
  | Pending =>
      (exists h, pingMasterTimeout (fst r) = Some h /\ timers (fst r) = [h]) /\
      error_lines (events (fst r)) = error_lines (events s)
  end.
Proof.
  intros Ht Hn. unfold _checkMasterHelper. cbn zeta.
  exact (localHelper_settles _ _ startTime node polls s Ht Hn).
Qed.

Lemma connect_leaves_no_timer_witness :
  let r := _checkMasterHelper (Some 100) (Some 0) 1000 [poll_unbound 1100]
             sample_process in
  timers (fst r) = [] /\
  error_lines (events (fst r)) = 1%nat.
Proof.
  exact (connect_leaves_no_timer (Some 100) (Some 0) 1000 [poll_unbound 1100]
           sample_process sample_node eq_refl eq_refl).
Defined.

(** Every connection attempt comes after a timer of its own: a run over
    [polls] firings arms between one and [length polls + 1] timers and
    makes no more attempts than firings, nor than timers. *)
Theorem connect_attempts_bounded
    (timeout maxTimeout : option Z) (startTime : Z) (polls : list Poll)
    (s : Process) :
  let r := _checkMasterHelper timeout maxTimeout startTime polls s in
  exists a t : nat,
    attempts (events (fst r)) = (a + attempts (events s))%nat /\
    length (delays (events (fst r))) = (t + length (delays (events s)))%nat /\
    (a <= length polls)%nat /\ (a <= t)%nat /\
    (1 <= t)%nat /\ (t <= S (length polls))%nat.
Proof.
  unfold _checkMasterHelper.
  generalize (default 100 timeout) (default (-1) maxTimeout). intros t m.
  revert s. induction polls as [|p polls IH]; intros s; cbn zeta.
  - rewrite localHelper_nil. exists O, 1%nat. cbn. repeat split; lia.
  - destruct (the_node s) as [node|] eqn:Hn.
    + destruct (poll_cases m startTime p)
        as [[Hf Hd]|[[Hs Hd]|[(Hs & Hm & Hd)|[Hs Hm]]]].
      * rewrite (localHelper_retry _ _ _ _ _ _ _ Hn Hf Hd).
        destruct (IH (retried t p node s)) as (a & k & Ha & Hk & B1 & B2 & B3 & B4).
        rewrite attempts_retried in Ha. rewrite delays_retried in Hk.
        cbn [length] in *.
        exists ((if slaveApiSetupComplete p then 1 else 0) + a)%nat, (S k).
        rewrite Ha, Hk. destruct (slaveApiSetupComplete p); repeat split; lia.
      * rewrite (localHelper_no_slave _ _ _ _ _ _ _ Hn Hs Hd).
        exists O, 1%nat. cbn. repeat split; lia.
      * rewrite (localHelper_no_master _ _ _ _ _ _ _ Hn Hs Hm Hd).
        exists 1%nat, 1%nat. cbn. repeat split; lia.
      * rewrite (localHelper_connected _ _ _ _ _ _ _ Hn Hs Hm). cbn [fst].
        change (events (set_pingMasterTimeout None ?x)) with (events x).
        destruct (log_infoOnce_trace (logNow p) (msg_connected (getRosMasterUri node))
                    (emit GetMasterUri (woken t s))) as [H1 H2].
        rewrite H1, H2. exists 1%nat, 1%nat. cbn. repeat split; lia.
    + rewrite (localHelper_no_node _ _ _ _ _ _ Hn).
      exists O, 1%nat. cbn. repeat split; lia.
Qed.

End Retry.

(** ** More on node names *)

Module Names.

(** Validating twice is validating once: a validated name is accepted as
    it is. *)
Theorem validateNodeName_idempotent (nodeName : string) :
  _validateNodeName (_validateNodeName nodeName) = _validateNodeName nodeName.
Proof.
  unfold _validateNodeName at 1.
  rewrite Node.validated_starts_with_slash. reflexivity.
Qed.

Lemma append_cancel_l (s a b : string) : s +:+ a = s +:+ b -> a = b.
Proof.
  induction s as [|c s IH]; cbn; intros H; [exact H|].
  injection H as H. apply IH, H.
Qed.

Lemma to_int_not_nil z : Z.to_int z <> Decimal.Pos Decimal.Nil /\
                         Z.to_int z <> Decimal.Neg Decimal.Nil.
Proof.
  destruct z as [|p|p]; cbn; split; try discriminate; intros H; injection H as H;
    exact (DecimalPos.Unsigned.to_uint_nonnil p H).
Qed.

(** Printing a number loses nothing. *)
Lemma num_to_string_inj a b : num_to_string a = num_to_string b -> a = b.
Proof.
  unfold num_to_string. intros H. apply DecimalZ.to_int_inj.
  destruct (to_int_not_nil a) as [Ha1 Ha2]. destruct (to_int_not_nil b) as [Hb1 Hb2].
  pose proof (NilZero.isi _ Ha1 Ha2) as Ia. pose proof (NilZero.isi _ Hb1 Hb2) as Ib.
  rewrite H in Ia. rewrite Ia in Ib. injection Ib as Ib. exact Ib.
Qed.

(** Whether an anonymized name starts with '/' is decided before the stamp. *)
Lemma startsWith_slash_anonymized nodeName x y :
  startsWith_slash (nodeName +:+ "_" +:+ x) = startsWith_slash (nodeName +:+ "_" +:+ y).
Proof.
  unfold startsWith_slash. destruct nodeName as [|c n]; [reflexivity|].
  change (String c n +:+ "_" +:+ x) with (String c (n +:+ "_" +:+ x)).
  change (String c n +:+ "_" +:+ y) with (String c (n +:+ "_" +:+ y)).
  cbn [String.prefix]. destruct (ascii_dec "/" c); [|reflexivity].
  generalize (n +:+ "_" +:+ x) (n +:+ "_" +:+ y). intros [|a u] [|b v]; reflexivity.
Qed.

(** In one process, anonymized names taken at different times differ; so a
    second anonymous [initNode] at another time is always rejected, never
    answered with the handle of the node that exists. *)
Theorem anonymous_names_distinct
    (nodeName : string) (options : Options) (env env' : Env) :
  anonymous options = true ->
  pid env = pid env' ->
  anonNow env <> anonNow env' ->
  resolved_name nodeName options env <> resolved_name nodeName options env' /\
  (forall s r node,
     rosNode s = Some r ->
     heap s !! r = Some node ->
     getNodeName node = resolved_name nodeName options env ->
     initNode nodeName options env' s =
     (s, Rejected (DuplicateNodeName (resolved_name nodeName options env')
                     (getNodeName node)))).
Proof.
  intros Ha Hp Hn.
  assert (Hne : resolved_name nodeName options env <> resolved_name nodeName options env').
  { unfold resolved_name, _validateNodeName, _anonymizeNodeName. rewrite Ha, Hp.
    rewrite (startsWith_slash_anonymized nodeName
               (num_to_string (pid env') +:+ "_" +:+ num_to_string (anonNow env))
               (num_to_string (pid env') +:+ "_" +:+ num_to_string (anonNow env'))).
    intros H. apply Hn, num_to_string_inj.
    destruct (startsWith_slash _); cbn [negb] in H.
    - do 4 apply append_cancel_l in H. exact H.
    - do 5 apply append_cancel_l in H. exact H. }
  split; [exact Hne|].
  intros s r node Hr Hl Hname. unfold initNode. rewrite Hr, Hl, Hname.
  replace (String.eqb _ _) with false; [reflexivity|].
  symmetry. apply String.eqb_neq. intros H. apply Hne. symmetry. exact H.
Qed.

Lemma anonymous_names_distinct_witness :
  "/talker_4242_1000" <> "/talker_4242_1001" /\
  (forall s r node,
     rosNode s = Some r ->
     heap s !! r = Some node ->
     getNodeName node = "/talker_4242_1000" ->
     initNode "talker" only_anonymous
       (mkEnv 4242 1001 None None 1000 [] None sample_sim 1200 Pending) s =
     (s, Rejected (DuplicateNodeName "/talker_4242_1001" (getNodeName node)))).
Proof.
  apply (anonymous_names_distinct "talker" only_anonymous sample_env
           (mkEnv 4242 1001 None None 1000 [] None sample_sim 1200 Pending)).
  - reflexivity.
  - reflexivity.
  - cbn. lia.
Defined.

End Names.

(** ** More on initialisation, shutdown and reset *)

Module Lifecycle.

Lemma and_then_resolved_inv {A B : Type} (r : Process * Promise A)
    (f : A -> Process -> Process * Promise B) s' b :
  and_then r f = (s', Resolved b) ->
  exists s1 a, r = (s1, Resolved a) /\ f a s1 = (s', Resolved b).
Proof.
  destruct r as [s1 [|a|e]]; cbn; intros H; try discriminate H.
  exists s1, a. auto.
Qed.

Lemma settled_resolved_inv o s s' :
  settled o s = (s', Resolved tt) -> s' = s.
Proof. destruct o; cbn; intros H; [discriminate H | congruence]. Qed.

Lemma initializeRosTime_same_timers tenv notime s :
  same_timers s (fst (_initializeRosTime tenv notime s)).
Proof.
  unfold _initializeRosTime. destruct notime; [split; reflexivity|].
  destruct (getParam_use_sim_time tenv) as [val|err].
  - unfold on_use_sim_time. destruct (truthy val); [|split; reflexivity].
    destruct (subscribe_throws tenv) as [e|]; cbn.
    + destruct (statusCode e); split; reflexivity.
    + split; reflexivity.
  - cbn. destruct (statusCode err); split; reflexivity.
Qed.

(** After [shutdown], [ok()] is false. *)
Lemma ok_shutdown closing s : ok (fst (shutdown closing s)) = false.
Proof.
  unfold shutdown.
  destruct (ok (clearTimeout (pingMasterTimeout s) s)) eqn:H; cbn [fst].
  - apply Shutdown.ok_rosNode_shutdown, H.
  - exact H.
Qed.

Lemma shutdown_heap_other closing s r0 r :
  rosNode s = Some r0 -> r <> r0 ->
  heap (fst (shutdown closing s)) !! r = heap s !! r.
Proof.
  intros Hr Hne. unfold shutdown.
  assert (Hh : heap (clearTimeout (pingMasterTimeout s) s) = heap s).
  { destruct (pingMasterTimeout s); reflexivity. }
  assert (Hr' : rosNode (clearTimeout (pingMasterTimeout s) s) = Some r0).
  { destruct (pingMasterTimeout s); exact Hr. }
  destruct (ok _); cbn [fst]; [|rewrite Hh; reflexivity].
  unfold rosNode_shutdown. rewrite Hr'.
  destruct (heap (clearTimeout _ s) !! r0) eqn:Hl; [|rewrite Hh; reflexivity].
  cbn. rewrite list_lookup_insert_ne by congruence. rewrite Hh. reflexivity.
Qed.

(** The startup chain leaves every node but the one being started alone. *)
Lemma startup_heap_other options env s r0 r :
  rosNode s = Some r0 -> r <> r0 ->
  heap (fst (startup options env s)) !! r = heap s !! r.
Proof.
  intros Hr Hne. unfold startup.
  set (c := and_then (before_clock options env s) _).
  assert (Hc : same_nodes s (fst c)).
  { subst c. apply Node.same_nodes_and_then; [apply Node.same_nodes_before_clock|].
    intros _ s1. apply Node.same_nodes_and_then; [apply Node.same_nodes_initializeRosTime|].
    intros _ s2. apply Node.same_nodes_refl. }
  destruct c as [s1 [|h|err]]; cbn [fst] in *; try (rewrite (proj1 Hc); reflexivity).
  rewrite (shutdown_heap_other _ _ r0 r); [|rewrite <- Hr; apply Hc | exact Hne].
  cbn. rewrite (proj1 Hc). reflexivity.
Qed.

(** The startup chain ends in [shutdown] exactly when it rejects. *)
Lemma startup_rejected options env s err :
  snd (startup options env s) = Rejected err ->
  ok (fst (startup options env s)) = false.
Proof.
  unfold startup.
  destruct (and_then (before_clock options env s) _) as [s1 [|h|e]]; cbn [fst snd];
    intros H; try discriminate H.
  apply ok_shutdown.
Qed.

(** [shutdown]: whatever the state, [ok()] is false afterwards; the promise
    is that of [rosNode.shutdown()] exactly when [ok()] held before; the
    node stays where [rosNode] points, with its name, and Time.js is not
    touched. *)
Theorem shutdown_makes_not_ok (closing : Promise unit) (s : Process) :
  ok (fst (shutdown closing s)) = false /\
  snd (shutdown closing s) = (if ok s then closing else Resolved tt) /\
  rosNode (fst (shutdown closing s)) = rosNode s /\
  time (fst (shutdown closing s)) = time s /\
  (forall node, the_node s = Some node ->
     exists node', the_node (fst (shutdown closing s)) = Some node' /\
                   getNodeName node' = getNodeName node).
Proof.
  split; [apply ok_shutdown|].
  pose proof (proj2 (Shutdown.clearTimeout_frame (pingMasterTimeout s) s)) as Hok.
  assert (Hc : rosNode (clearTimeout (pingMasterTimeout s) s) = rosNode s /\
               time (clearTimeout (pingMasterTimeout s) s) = time s).
  { destruct (pingMasterTimeout s); split; reflexivity. }
  split; [|split; [|split]].
  - unfold shutdown. rewrite Hok. destruct (ok s); reflexivity.
  - unfold shutdown. destruct (ok (clearTimeout _ s)); cbn [fst]; [|apply Hc].
    unfold rosNode_shutdown. destruct (rosNode (clearTimeout _ s)) as [r|] eqn:Hr;
      [|rewrite Hr; apply Hc].
    destruct (heap _ !! r); cbn; rewrite ?Hr; apply Hc.
  - unfold shutdown. destruct (ok (clearTimeout _ s)); cbn [fst]; [|apply Hc].
    unfold rosNode_shutdown. destruct (rosNode (clearTimeout _ s)) as [r|]; [|apply Hc].
    destruct (heap _ !! r); cbn; apply Hc.
  - intros node Hn. apply (Node.shutdown_keeps_name closing s node Hn).
Qed.

Lemma shutdown_makes_not_ok_witness :
  ok (fst (shutdown Pending sample_process)) = false /\
  snd (shutdown Pending sample_process) = Pending /\
  exists node', the_node (fst (shutdown Pending sample_process)) = Some node' /\
                getNodeName node' = "/talker".
Proof.
  pose proof (shutdown_makes_not_ok Pending sample_process) as (H1 & H2 & _ & _ & H3).
  split; [exact H1|]. split; [exact H2|]. exact (H3 sample_node eq_refl).
Defined.

Lemma before_clock_resolved_inv options env s s1 :
  before_clock options env s = (s1, Resolved tt) ->
  exists s0,
    localHelper 100 (default (-1) (opt_timeout options)) (startTime env) (polls env) s =
      (s0, Resolved tt) /\
    s1 = s0.
Proof.
  unfold before_clock, _checkMasterHelper. intros H.
  apply and_then_resolved_inv in H as (sa & [] & Ha & H).
  apply and_then_resolved_inv in H as (sb & [] & Hb & H).
  apply settled_resolved_inv in H. subst s1.
  assert (sa = s) as ->.
  { unfold _loadOnTheFlyMessages in Ha. destruct (onTheFly options).
    - apply settled_resolved_inv in Ha. exact Ha.
    - congruence. }
  exists sb. split; [exact Hb | reflexivity].
Qed.

Lemma localHelper_resolved_ping t m startTime polls : forall s s',
  localHelper t m startTime polls s = (s', Resolved tt) ->
  pingMasterTimeout s' = None.
Proof.
  induction polls as [|p polls IH]; intros s s' H.
  - rewrite Connect.localHelper_nil in H. discriminate H.
  - destruct (the_node s) as [node|] eqn:Hn.
    + destruct (Connect.poll_cases m startTime p)
        as [[Hf Hd]|[[Hs Hd]|[(Hs & Hm & Hd)|[Hs Hm]]]].
      * rewrite (Connect.localHelper_retry _ _ _ _ _ _ _ Hn Hf Hd) in H.
        exact (IH _ _ H).
      * rewrite (Connect.localHelper_no_slave _ _ _ _ _ _ _ Hn Hs Hd) in H.
        discriminate H.
      * rewrite (Connect.localHelper_no_master _ _ _ _ _ _ _ Hn Hs Hm Hd) in H.
        discriminate H.
      * rewrite (Connect.localHelper_connected _ _ _ _ _ _ _ Hn Hs Hm) in H.
        injection H as <-. reflexivity.
    + rewrite (Connect.localHelper_no_node _ _ _ _ _ _ Hn) in H. discriminate H.
Qed.

(** A first [initNode] that resolves has added exactly one node, which is
    not shut down and which the handle and [rosNode] refer to; it has
    cleared [pingMasterTimeout] and, if no timer was held before, holds
    none. *)
Theorem initNode_resolved
    (nodeName : string) (options : Options) (env : Env) (s s' : Process)
    (h : NodeHandle) :
  rosNode s = None ->
  initNode nodeName options env s = (s', Resolved h) ->
  h = {| nh_node := Some (length (heap s)); nh_namespace := None |} /\
  heap s' = heap s ++ [new_RosNode (resolved_name nodeName options env)
                         (chosen_master_uri options env)] /\
  rosNode s' = Some (length (heap s)) /\
  ok s' = true /\
  pingMasterTimeout s' = None /\
  (timers s = [] -> timers s' = []).
Proof.
  intros Hnone H. unfold initNode in H. rewrite Hnone in H. unfold startup in H.
  set (c0 := create_node (resolved_name nodeName options env) options env s) in *.
  destruct (and_then (before_clock options env c0) _) as [s2 [|h2|e]] eqn:Hc;
    try discriminate H.
  injection H as -> ->.
  apply and_then_resolved_inv in Hc as (s1 & [] & Hb & Hc).
  apply and_then_resolved_inv in Hc as (s2 & [] & Ht & Hc).
  injection Hc as -> <-.
  pose proof (Node.same_nodes_before_clock options env c0) as Hn1.
  rewrite Hb in Hn1. cbn [fst] in Hn1.
  pose proof (Node.same_nodes_initializeRosTime (timeEnv env) (notime options) s1) as Hn2.
  pose proof (initializeRosTime_same_timers (timeEnv env) (notime options) s1) as Ht2.
  rewrite Ht in Hn2, Ht2. cbn [fst] in Hn2, Ht2.
  destruct Hn1 as [Hh1 Hr1]. destruct Hn2 as [Hh2 Hr2]. destruct Ht2 as [Hp2 Htm2].
  apply before_clock_resolved_inv in Hb as (s0 & Hl & ->).
  assert (Hrn : rosNode s' = Some (length (heap s))).
  { rewrite Hr2, Hr1. reflexivity. }
  assert (Hhp : heap s' = heap s ++ [new_RosNode (resolved_name nodeName options env)
                                       (chosen_master_uri options env)]).
  { rewrite Hh2, Hh1. reflexivity. }
  split; [unfold getNodeHandle; rewrite Hrn; reflexivity|].
  split; [exact Hhp|]. split; [exact Hrn|]. split; [|split].
  - unfold ok, the_node. rewrite Hrn, Hhp.
    rewrite list_lookup_middle by reflexivity. reflexivity.
  - rewrite Hp2. exact (localHelper_resolved_ping _ _ _ _ _ _ Hl).
  - intros Htm. rewrite Htm2.
    pose proof (Retry.localHelper_settles 100 (default (-1) (opt_timeout options))
                  (startTime env) _ (polls env) c0 Htm
                  (Node.the_node_create_node _ options env s)) as Hs.
    rewrite Hl in Hs. cbn [fst snd] in Hs. apply Hs.
Qed.

Lemma initNode_resolved_witness :
  let r := initNode "talker" no_options sample_env Process_init in
  snd r = Resolved {| nh_node := Some O; nh_namespace := None |} /\
  heap (fst r) = [new_RosNode "/talker" (Some "http://localhost:11311")] /\
  ok (fst r) = true /\
  pingMasterTimeout (fst r) = None /\
  timers (fst r) = [].
Proof.
  cbn zeta.
  destruct (initNode "talker" no_options sample_env Process_init) as [s' p] eqn:E.
  assert (Hp : p = Resolved {| nh_node := Some O; nh_namespace := None |}).
  { apply (f_equal snd) in E. cbn [snd] in E. rewrite <- E. reflexivity. }
  subst p.
  destruct (initNode_resolved "talker" no_options sample_env Process_init s' _
              eq_refl E) as (_ & H2 & _ & H4 & H5 & H6).
  cbn [fst snd]. split; [reflexivity|]. split; [exact H2|]. split; [exact H4|].
  split; [exact H5|]. exact (H6 eq_refl).
Defined.

(** A first [initNode] that rejects leaves its node behind, shut down:
    [rosNode] still refers to it, [ok()] is false, and any later [initNode]
    under the same name resolves at once with a handle to that dead node
    instead of starting again. *)
Theorem initNode_rejected_keeps_node
    (nodeName : string) (options : Options) (env : Env) (s : Process)
    (err : JsError) :
  rosNode s = None ->
  snd (initNode nodeName options env s) = Rejected err ->
  let s' := fst (initNode nodeName options env s) in
  rosNode s' = Some (length (heap s)) /\
  ok s' = false /\
  (exists node, the_node s' = Some node /\
                getNodeName node = resolved_name nodeName options env) /\
  (forall nodeName2 options2 env2,
     resolved_name nodeName2 options2 env2 = resolved_name nodeName options env ->
     initNode nodeName2 options2 env2 s' =
     (s', Resolved {| nh_node := Some (length (heap s)); nh_namespace := None |})).
Proof.
  intros Hnone Hrej. cbn zeta. unfold initNode in *. rewrite Hnone in *.
  set (c0 := create_node (resolved_name nodeName options env) options env s) in *.
  destruct (Node.startup_keeps_name options env c0 _
              (Node.the_node_create_node _ options env s))
    as (Hr & node' & Hn & Hname).
  change (rosNode c0) with (Some (length (heap s))) in Hr.
  cbn [getNodeName new_RosNode _nodeName] in Hname.
  split; [exact Hr|]. split; [exact (startup_rejected _ _ _ _ Hrej)|].
  split; [exists node'; auto|].
  intros nodeName2 options2 env2 Heq. rewrite Hr.
  unfold the_node in Hn. rewrite Hr in Hn. rewrite Hn.
  unfold getNodeName in *. rewrite Heq, Hname, String.eqb_refl.
  unfold getNodeHandle. rewrite Hr. reflexivity.
Qed.

Lemma initNode_rejected_keeps_node_witness :
  let s' := fst (initNode "talker" no_options sample_env_refused Process_init) in
  rosNode s' = Some O /\
  ok s' = false /\
  initNode "/talker" no_options sample_env s' =
    (s', Resolved {| nh_node := Some O; nh_namespace := None |}).
Proof.
  destruct (initNode_rejected_keeps_node "talker" no_options sample_env_refused
              Process_init (Error "connect ECONNREFUSED") eq_refl eq_refl)
    as (H1 & H2 & _ & H4).
  split; [exact H1|]. split; [exact H2|].
  exact (H4 "/talker" no_options sample_env eq_refl).
Defined.

(** [reset] forgets the node without touching it: the next [initNode],
    under any name, the old one included, creates a new node, and the old
    node object stays what it was for the handles that refer to it, even if
    the new startup fails and shuts its own node down. *)
Theorem initNode_after_reset
    (nodeName : string) (options : Options) (env : Env) (s : Process)
    (r : nat) (old : RosNode) :
  rosNode s = Some r ->
  heap s !! r = Some old ->
  let s' := fst (initNode nodeName options env (reset s)) in
  rosNode s' = Some (length (heap s)) /\
  heap s' !! r = Some old /\
  exists node, the_node s' = Some node /\
               getNodeName node = resolved_name nodeName options env.
Proof.
  intros Hr Hold. cbn zeta. unfold initNode.
  change (rosNode (reset s)) with (@None nat).
  set (c0 := create_node (resolved_name nodeName options env) options env (reset s)).
  destruct (Node.startup_keeps_name options env c0 _
              (Node.the_node_create_node _ options env (reset s)))
    as (Hr' & node' & Hn & Hname).
  change (rosNode c0) with (Some (length (heap s))) in Hr'.
  pose proof (lookup_lt_Some _ _ _ Hold) as Hlt.
  split; [exact Hr'|]. split; [|exists node'; auto].
  rewrite (startup_heap_other options env c0 (length (heap s)) r); [|reflexivity|lia].
  change (heap c0) with (heap s ++ [new_RosNode (resolved_name nodeName options env)
                                     (chosen_master_uri options env)]).
  rewrite lookup_app_l by exact Hlt. exact Hold.
Qed.

Lemma initNode_after_reset_witness :
  let s' := fst (initNode "talker" no_options sample_env_refused (reset sample_process)) in
  rosNode s' = Some 1%nat /\
  heap s' !! O = Some sample_node /\
  exists node, the_node s' = Some node /\ getNodeName node = "/talker".
Proof.
  exact (initNode_after_reset "talker" no_options sample_env_refused sample_process
           O sample_node eq_refl eq_refl).
Defined.

Lemma shutdown_trace closing s :
  attempts (events (fst (shutdown closing s))) = attempts (events s) /\
  delays (events (fst (shutdown closing s))) = delays (events s).
Proof.
  unfold shutdown.
  assert (He : events (clearTimeout (pingMasterTimeout s) s) = events s).
  { destruct (pingMasterTimeout s); reflexivity. }
  destruct (ok _); cbn [fst]; [|rewrite He; auto].
  unfold rosNode_shutdown. destruct (rosNode _) as [r|]; [|rewrite He; auto].
  destruct (heap _ !! r); cbn; rewrite He; auto.
Qed.

(** When loading the messages on the fly fails, startup rejects with that
    error before any timer is armed or any connection attempted; the node
    was created all the same and is shut down. *)
Theorem initNode_messages_fail
    (nodeName : string) (options : Options) (env : Env) (s : Process)
    (err : JsError) :
  rosNode s = None ->
  onTheFly options = true ->
  getAll env = Some err ->
  let r := initNode nodeName options env s in
  snd r = Rejected err /\
  attempts (events (fst r)) = attempts (events s) /\
  delays (events (fst r)) = delays (events s) /\
  rosNode (fst r) = Some (length (heap s)) /\
  ok (fst r) = false.
Proof.
  intros Hnone Hfly Hget. cbn zeta.
  assert (Hrej : snd (initNode nodeName options env s) = Rejected err).
  { unfold initNode, startup, before_clock, _loadOnTheFlyMessages.
    rewrite Hnone, Hfly, Hget. reflexivity. }
  split; [exact Hrej|].
  unfold initNode in *. rewrite Hnone in *.
  set (c0 := create_node (resolved_name nodeName options env) options env s) in *.
  destruct (Node.startup_keeps_name options env c0 _
              (Node.the_node_create_node _ options env s)) as (Hr & _).
  split; [|split; [|split; [exact Hr | exact (startup_rejected _ _ _ _ Hrej)]]];
    unfold startup, before_clock, _loadOnTheFlyMessages; rewrite Hfly, Hget;
    cbn [settled and_then fst];
    [rewrite (proj1 (shutdown_trace _ _)) | rewrite (proj2 (shutdown_trace _ _))];
    reflexivity.
Qed.

Lemma initNode_messages_fail_witness :
  let r := initNode "talker"
             {| anonymous := false; opt_rosMasterUri := None; opt_timeout := None;
                notime := false; onTheFly := true |}
             (mkEnv 4242 1000 None (Some (Error "no messages")) 1000 [poll_up 1100]
                None sample_sim 1200 Pending)
             Process_init in
  snd r = Rejected (Error "no messages") /\
  attempts (events (fst r)) = O /\
  delays (events (fst r)) = [] /\
  rosNode (fst r) = Some O /\
  ok (fst r) = false.
Proof.
  exact (initNode_messages_fail "talker"
           {| anonymous := false; opt_rosMasterUri := None; opt_timeout := None;
              notime := false; onTheFly := true |}
           (mkEnv 4242 1000 None (Some (Error "no messages")) 1000 [poll_up 1100]
              None sample_sim 1200 Pending)
           Process_init (Error "no messages") eq_refl eq_refl eq_refl).
Defined.

(** While the registry stays out of reach and no deadline is set, a first
    [initNode] stays pending; the node exists already and [ok()] is true,
    and exactly one retry timer is held, which [pingMasterTimeout] refers
    to, so that [shutdown] stops the retries. *)
Theorem initNode_pending
    (nodeName : string) (options : Options) (env : Env) (s : Process) :
  rosNode s = None ->
  timers s = [] ->
  onTheFly options = false \/ getAll env = None ->
  default (-1) (opt_timeout options) < 0 ->
  Forall (fun q => fails q = true) (polls env) ->
  let r := initNode nodeName options env s in
  snd r = Pending /\
  ok (fst r) = true /\
  (exists h, pingMasterTimeout (fst r) = Some h /\ timers (fst r) = [h]) /\
  forall closing, timers (fst (shutdown closing (fst r))) = [].
Proof.
  intros Hnone Htm Hfly Hneg Hfail. cbn zeta. unfold initNode. rewrite Hnone.
  set (c0 := create_node (resolved_name nodeName options env) options env s).
  pose proof (Node.the_node_create_node (resolved_name nodeName options env)
                options env s) as Hn. fold c0 in Hn.
  pose proof (Retry.localHelper_settles 100 (default (-1) (opt_timeout options))
                (startTime env) _ (polls env) c0 Htm Hn) as Hs.
  pose proof (Connect.localHelper_frame 100 (default (-1) (opt_timeout options))
                (startTime env) (polls env) c0) as (Hh & Hr & _).
  pose proof (Connect.localHelper_never_rejects 100 _ (startTime env) (polls env)
                Hneg c0) as Hnr.
  assert (Hst : startup options env c0 =
                (fst (localHelper 100 (default (-1) (opt_timeout options))
                        (startTime env) (polls env) c0), Pending) /\
                snd (localHelper 100 (default (-1) (opt_timeout options)) (startTime env)
                       (polls env) c0) = Pending).
  { unfold startup, before_clock, _checkMasterHelper, _loadOnTheFlyMessages.
    change (default 100 (Some 100)) with 100.
    assert (Hload : (if onTheFly options then settled (getAll env) c0
                     else (c0, Resolved tt)) = (c0, Resolved tt)).
    { destruct Hfly as [-> | ->]; [reflexivity|]. destruct (onTheFly options); reflexivity. }
    rewrite Hload. cbn [and_then].
    destruct (localHelper 100 _ (startTime env) (polls env) c0) as [s0 [|[]|e]] eqn:El.
    - split; reflexivity.
    - exfalso.
      destruct (Connect.localHelper_resolved_inv _ _ _ _ _ _ El)
        as (pre & p & post & Hp & _ & Hsl & Hm).
      rewrite Hp in Hfail. apply Forall_app in Hfail as [_ Hfail].
      inversion Hfail as [|? ? Hf _]; subst. unfold fails in Hf.
      rewrite Hsl, Hm in Hf. discriminate Hf.
    - exfalso. apply (Hnr e). reflexivity. }
  destruct Hst as [Hst Hl]. rewrite Hst.
  destruct (localHelper 100 _ (startTime env) (polls env) c0) as [s0 pl].
  cbn [fst snd] in *. subst pl. destruct Hs as [(h & Hp & Ht) _].
  split; [reflexivity|]. split; [|split].
  - unfold ok, the_node. rewrite Hh, Hr. fold (the_node c0). rewrite Hn. reflexivity.
  - exists h. auto.
  - intros closing. unfold shutdown. rewrite Hp. cbn [clearTimeout].
    destruct (ok _); cbn [fst]; [rewrite Shutdown.timers_rosNode_shutdown|];
      cbn; rewrite Ht; unfold drop_timer; cbn; rewrite Nat.eqb_refl; reflexivity.
Qed.

Lemma initNode_pending_witness :
  let r := initNode "talker" no_options
             (mkEnv 4242 1000 None None 1000 [poll_unbound 1100; poll_down 1200]
                None sample_sim 1200 Pending)
             Process_init in
  snd r = Pending /\
  ok (fst r) = true /\
  (exists h, pingMasterTimeout (fst r) = Some h /\ timers (fst r) = [h]) /\
  forall closing, timers (fst (shutdown closing (fst r))) = [].
Proof.
  apply (initNode_pending "talker" no_options
           (mkEnv 4242 1000 None None 1000 [poll_unbound 1100; poll_down 1200]
              None sample_sim 1200 Pending)
           Process_init).
  - reflexivity.
  - reflexivity.
  - left. reflexivity.
  - cbn. lia.
  - repeat constructor.
Defined.

End Lifecycle.

(** ** More on the clock *)

Module ClockMode.

(** In wall-clock mode every [now()] returns the wall clock, whatever has
    been delivered on the clock topic. *)
Theorem wall_mode_ignores_clock (t : TimeState) (calls : list TimeCall) :
  truthy (useSimTime t) = false ->
  fst (run_time calls t) = walls calls.
Proof.
  intros Hw. revert t Hw.
  induction calls as [|[msg|wall] calls IH]; intros t Hw; cbn [run_time walls].
  - reflexivity.
  - apply IH. exact Hw.
  - specialize (IH t Hw). destruct (run_time calls t) as [vs t']. cbn [fst] in *.
    unfold now. rewrite Hw, IH. reflexivity.
Qed.

Lemma wall_mode_ignores_clock_witness :
  let wall := {| secs := 1700000000; nsecs := 0 |} in
  fst (run_time [Deliver {| clock := {| secs := 7; nsecs := 500 |} |}; CallNow wall]
         Time_init) = [wall].
Proof.
  exact (wall_mode_ignores_clock Time_init
           [Deliver {| clock := {| secs := 7; nsecs := 500 |} |};
            CallNow {| secs := 1700000000; nsecs := 0 |}] eq_refl).
Defined.

(** Clock initialisation only ever rejects with an error that carries no
    status code: the error of the lookup itself, or what subscribing to the
    clock topic threw after a truthy flag. *)
Theorem initializeRosTime_rejects_without_status
    (tenv : TimeEnv) (notime : bool) (s : Process) (e : JsError) :
  snd (_initializeRosTime tenv notime s) = Rejected e ->
  statusCode e = None /\
  notime = false /\
  (getParam_use_sim_time tenv = inr e \/
   exists val, getParam_use_sim_time tenv = inl val /\ truthy val = true /\
               subscribe_throws tenv = Some e).
Proof.
  unfold _initializeRosTime. destruct notime; [discriminate|].
  destruct (getParam_use_sim_time tenv) as [val|err] eqn:Hg.
  - unfold on_use_sim_time. destruct (truthy val) eqn:Hv; [|discriminate].
    destruct (subscribe_throws tenv) as [e'|] eqn:Hsub; [|discriminate].
    cbn. destruct (statusCode e') eqn:Hc; [discriminate|].
    intros H. injection H as <-. split; [exact Hc|]. split; [reflexivity|].
    right. exists val. auto.
  - cbn. destruct (statusCode err) eqn:Hc; [discriminate|].
    intros H. injection H as <-. auto.
Qed.

Lemma initializeRosTime_rejects_without_status_witness :
  statusCode (Error "connect ECONNREFUSED") = None /\
  false = false /\
  (getParam_use_sim_time (timeEnv sample_env_refused) = inr (Error "connect ECONNREFUSED") \/
   exists val, getParam_use_sim_time (timeEnv sample_env_refused) = inl val /\
               truthy val = true /\
               subscribe_throws (timeEnv sample_env_refused) =
                 Some (Error "connect ECONNREFUSED")).
Proof.
  exact (initializeRosTime_rejects_without_status (timeEnv sample_env_refused) false
           Process_init (Error "connect ECONNREFUSED") eq_refl).
Defined.

(** When the lookup succeeds the flag decides the mode by its truthiness:
    truthy, the node subscribes to "/clock" without throttling and [now()]
    returns [simTime]; falsy, nothing is subscribed and [now()] returns the
    wall clock.  The flag is stored as it came. *)
Theorem sim_time_flag_decides
    (tenv : TimeEnv) (val : JsVal) (s : Process) :
  getParam_use_sim_time tenv = inl val ->
  subscribe_throws tenv = None ->
  let r := _initializeRosTime tenv false s in
  snd r = Resolved tt /\
  useSimTime (time (fst r)) = val /\
  simTime (time (fst r)) = simTime (time s) /\
  simTimeSub (time (fst r)) =
    (if truthy val then Some clock_subscriber else simTimeSub (time s)) /\
  (forall wall, now wall (time (fst r)) =
                if truthy val then simTime (time s) else wall) /\
  same_nodes s (fst r).
Proof.
  intros Hg Hsub. cbn zeta.
  split; [|split; [|split; [|split; [|split]]]];
    try apply Node.same_nodes_initializeRosTime;
    unfold _initializeRosTime, on_use_sim_time, now; rewrite Hg;
    destruct (truthy val) eqn:Hv; rewrite ?Hsub; cbn; rewrite ?Hv; reflexivity.
Qed.

Lemma sim_time_flag_decides_witness :
  let r := _initializeRosTime sample_sim false Process_init in
  snd r = Resolved tt /\
  simTimeSub (time (fst r)) = Some clock_subscriber /\
  (forall wall, now wall (time (fst r)) = zeroTime).
Proof.
  destruct (sim_time_flag_decides sample_sim (VBool true) Process_init eq_refl eq_refl)
    as (H1 & _ & _ & H4 & H5 & _).
  split; [exact H1|]. split; [exact H4|]. exact H5.
Defined.

End ClockMode.

(** ** Packages and message definitions *)

Module Packages.

Lemma findPackage_settled calls : forall p : Promise string,
  p <> Pending ->
  fold_left (fun p c => findPackage_callback (fst c) (snd c) p) calls p = p.
Proof.
  induction calls as [|[err dir] calls IH]; intros p Hp; [reflexivity|].
  cbn [fold_left fst snd].
  assert (Hc : findPackage_callback err dir p = p).
  { destruct p; [contradiction| |]; destruct err; reflexivity. }
  rewrite Hc. apply IH, Hp.
Qed.

(** [findPackage] is settled by the first call of its callback alone: with
    an error it rejects, although [resolve] is still called after [reject];
    without one it resolves with the directory.  Until the callback is called
    it is pending. *)
Theorem findPackage_first_call
    (err : option JsError) (dir : string) (rest : list (option JsError * string)) :
  findPackage [] = Pending /\
  findPackage ((err, dir) :: rest) =
    match err with
    | Some e => Rejected e
    | None => Resolved dir
    end.
Proof.
  split; [reflexivity|]. unfold findPackage. cbn [fold_left fst snd].
  rewrite findPackage_settled; destruct err; cbn; try reflexivity; discriminate.
Qed.


Lemma split_before_sep sep a : forall b,
  contains sep a = false ->
  split sep (a +:+ String sep b) = a :: split sep b.
Proof.
  induction a as [|c a IH]; intros b Ha.
  - change ("" +:+ String sep b) with (String sep b). cbn [split].
    rewrite Ascii.eqb_refl. reflexivity.
  - cbn [contains] in Ha. apply orb_false_iff in Ha as [Hc Ha].
    change (String c a +:+ String sep b) with (String c (a +:+ String sep b)).
    cbn [split]. rewrite Hc, (IH b Ha). reflexivity.
Qed.

Lemma split_no_sep sep a : contains sep a = false -> split sep a = [a].
Proof.
  induction a as [|c a IH]; intros Ha; [reflexivity|].
  cbn [contains] in Ha. apply orb_false_iff in Ha as [Hc Ha].
  cbn [split]. rewrite Hc, (IH Ha). reflexivity.
Qed.

(** [checkMessage] and [checkService] never throw.  For a type written
    "pkg/name" they give the entry [name] of the package's message or
    service table, and nothing when the package cannot be required or has
    no such table; whatever follows a second '/' is ignored; and a type
    without '/' reads the entry named "undefined". *)
Theorem checkMessage_reads_two_parts {C : Type}
    (requireMsgPackage : string -> JsError + option (MsgPackage C))
    (pkg name rest : string) :
  contains "/" pkg = false ->
  contains "/" name = false ->
  (checkMessage requireMsgPackage (pkg +:+ "/" +:+ name) =
     lookup_class pkg_msg requireMsgPackage pkg name /\
   checkMessage requireMsgPackage (pkg +:+ "/" +:+ name +:+ "/" +:+ rest) =
     lookup_class pkg_msg requireMsgPackage pkg name /\
   checkMessage requireMsgPackage pkg =
     lookup_class pkg_msg requireMsgPackage pkg "undefined") /\
  (checkService requireMsgPackage (pkg +:+ "/" +:+ name) =
     lookup_class pkg_srv requireMsgPackage pkg name /\
   checkService requireMsgPackage (pkg +:+ "/" +:+ name +:+ "/" +:+ rest) =
     lookup_class pkg_srv requireMsgPackage pkg name /\
   checkService requireMsgPackage pkg =
     lookup_class pkg_srv requireMsgPackage pkg "undefined").
Proof.
  intros Hp Hn.
  assert (H2 : split "/" (pkg +:+ "/" +:+ name) = [pkg; name]).
  { change (pkg +:+ "/" +:+ name) with (pkg +:+ String "/" name).
    rewrite (split_before_sep "/" pkg name Hp), (split_no_sep "/" name Hn).
    reflexivity. }
  assert (H3 : exists tl, split "/" (pkg +:+ "/" +:+ name +:+ "/" +:+ rest) =
                          pkg :: name :: tl).
  { change (pkg +:+ "/" +:+ name +:+ "/" +:+ rest)
      with (pkg +:+ String "/" (name +:+ String "/" rest)).
    rewrite (split_before_sep "/" pkg _ Hp), (split_before_sep "/" name rest Hn).
    eexists. reflexivity. }
  destruct H3 as [tl H3].
  pose proof (split_no_sep "/" pkg Hp) as H1.
  unfold checkMessage, checkService, lookup_class. rewrite H1, H2, H3. cbn.
  repeat split;
    destruct (requireMsgPackage pkg) as [e|[p|]]; try reflexivity;
    try (destruct (pkg_msg p); reflexivity);
    destruct (pkg_srv p); reflexivity.
Qed.

Lemma checkMessage_reads_two_parts_witness :
  (checkMessage sample_require ("geometry_msgs" +:+ "/" +:+ "Twist") = Some 7%nat /\
   checkMessage sample_require
     ("geometry_msgs" +:+ "/" +:+ "Twist" +:+ "/" +:+ "more") = Some 7%nat /\
   checkMessage sample_require "geometry_msgs" = None) /\
  (checkService sample_require ("geometry_msgs" +:+ "/" +:+ "Twist") = None /\
   checkService sample_require
     ("geometry_msgs" +:+ "/" +:+ "Twist" +:+ "/" +:+ "more") = None /\
   checkService sample_require "geometry_msgs" = None).
Proof.
  exact (checkMessage_reads_two_parts sample_require "geometry_msgs" "Twist" "more"
           eq_refl eq_refl).
Defined.

End Packages.
